(** * voskjshttp: the request orchestration layer of the Vosk HTTP server

    A shallow embedding of [src/voskjshttp.js].  The synchronous stretches of
    the JavaScript code are functions of a small state-and-exception monad
    [M]; the points where the code gives control back to the event loop (the
    'data' and 'end' listeners of a POST body, the [await] on the engine's
    promise) are the [continuation]s a connection is parked in, and the
    event loop is the [step] function over the [input]s Node delivers.

    What the file does not own is taken as an interface ([Platform]): Node's
    [url.parse], [JSON.parse], [JSON.stringify], [Date.now], [path.basename],
    and the engine's opaque values.  The engine's promises settle through
    [Settled] inputs, so nothing is assumed about when or how they settle. *)

From Stdlib Require Import ZArith List String Ascii DecimalString Lia.
From Stdlib.Strings Require Import Byte.
From stdpp Require Import base option list strings gmap.

Open Scope Z_scope.
Open Scope string_scope.
Open Scope list_scope.

(** ** JavaScript values the server handles *)

(** What reading a property of the object [url.parse(u, true).query] gives:
    a string, an array of strings when the key occurs more than once in the
    query string, or undefined when it does not occur. *)
Inductive qvalue : Type :=
| QUndefined
| QString (s : string)
| QArray (l : list string).

(** [if (v)] on such a value: undefined and the empty string are falsy. *)
Definition truthy (v : qvalue) : bool :=
  match v with
  | QUndefined => false
  | QString s => negb (String.eqb s "")
  | QArray _ => true
  end.

(** [Array.prototype.join(',')], which is what [String(array)] does. *)
Fixpoint join_comma (l : list string) : string :=
  match l with
  | [] => ""
  | [s] => s
  | s :: rest => s +:+ "," +:+ join_comma rest
  end.

(** [String(v)], as a template literal computes it. *)
Definition qvalue_toString (v : qvalue) : string :=
  match v with
  | QUndefined => "undefined"
  | QString s => s
  | QArray l => join_comma l
  end.

(** [v !== name] for a query value [v] and a string [name]. *)
Definition strict_neq (v : qvalue) (name : string) : bool :=
  match v with
  | QString s => negb (String.eqb s name)
  | _ => true
  end.

(** [queryObject.key] *)
Definition property (queryObject : gmap string qvalue) (key : string) : qvalue :=
  default QUndefined (queryObject !! key).

(** The request id: [requestedId ? requestedId : currentTime]. *)
Inductive idval : Type :=
| IdQuery (q : qvalue)
| IdTime (t : Z).

Definition number_toString (z : Z) : string :=
  NilZero.string_of_int (Z.to_int z).

Definition id_toString (id : idval) : string :=
  match id with
  | IdQuery q => qvalue_toString q
  | IdTime t => number_toString t
  end.

(** The double quote character, for the texts the server builds. *)
Definition dq : string := String "034" EmptyString.

(** ** Reading a response body as JSON

    A recogniser for the one shape an error response is meant to have: a JSON
    object whose only member is a string named error.  Strings follow the
    JSON grammar: no raw double quote, no raw control character, and a
    backslash only in front of one of the escapes. *)

Definition is_hex (c : ascii) : bool :=
  let n := nat_of_ascii c in
  ((48 <=? n) && (n <=? 57) || (65 <=? n) && (n <=? 70) || (97 <=? n) && (n <=? 102))%nat.

Definition is_simple_escape (c : ascii) : bool :=
  existsb (Ascii.eqb c) ["034"; "092"; "/"; "b"; "f"; "n"; "r"; "t"]%char.

Definition is_whitespace (c : ascii) : bool :=
  existsb (Ascii.eqb c) [" "; "009"; "010"; "013"]%char.

(** The rest of the text after a JSON string whose opening quote has been
    read, or [None] when what follows is no JSON string. *)
Fixpoint after_json_string (text : string) : option string :=
  match text with
  | EmptyString => None
  | String c rest =>
      if Ascii.eqb c "034" then Some rest
      else if Ascii.eqb c "092" then
        match rest with
        | String e rest' =>
            if is_simple_escape e then after_json_string rest'
            else if Ascii.eqb e "u" then
              match rest' with
              | String h1 (String h2 (String h3 (String h4 rest''))) =>
                  if is_hex h1 && is_hex h2 && is_hex h3 && is_hex h4
                  then after_json_string rest''
                  else None
              | _ => None
              end
            else None
        | EmptyString => None
        end
      else if (nat_of_ascii c <? 32)%nat then None
      else after_json_string rest
  end.

Fixpoint skip_whitespace (text : string) : string :=
  match text with
  | String c rest => if is_whitespace c then skip_whitespace rest else text
  | EmptyString => EmptyString
  end.

(** [text] without the prefix [p], when it starts with it. *)
Fixpoint after_prefix (p text : string) : option string :=
  match p, text with
  | EmptyString, _ => Some text
  | String a p', String b text' => if Ascii.eqb a b then after_prefix p' text' else None
  | String _ _, EmptyString => None
  end.

(** Whether [body] is a JSON object with the single member error, a string. *)
Definition is_json_error_object (body : string) : bool :=
  match after_prefix "{" (skip_whitespace body) with
  | Some t1 =>
      match after_prefix (String "034" "error" +:+ String "034" EmptyString) (skip_whitespace t1) with
      | Some t2 =>
          match after_prefix ":" (skip_whitespace t2) with
          | Some t3 =>
              match after_prefix (String "034" EmptyString) (skip_whitespace t3) with
              | Some t4 =>
                  match after_json_string t4 with
                  | Some t5 =>
                      match after_prefix "}" (skip_whitespace t5) with
                      | Some t6 => String.eqb (skip_whitespace t6) ""
                      | None => false
                      end
                  | None => false
                  end
              | None => false
              end
          | None => false
          end
      | None => false
      end
  | None => false
  end.

(** Whether [needle] occurs in [text]. *)
Fixpoint contains (needle text : string) : bool :=
  String.prefix needle text ||
  match text with
  | String _ rest => contains needle rest
  | EmptyString => false
  end.

(** A character that stands for itself inside a JSON string. *)
Definition plain_char (c : ascii) : bool :=
  negb (Ascii.eqb c "034") && negb (Ascii.eqb c "092") && negb (nat_of_ascii c <? 32)%nat.

(** A text without double quote, backslash and control character. *)
Fixpoint plain (text : string) : bool :=
  match text with
  | EmptyString => true
  | String c rest => plain_char c && plain rest
  end.

(** ** HTTP requests and the inputs of the event loop *)

(** A response object [res]; one per request. *)
Definition conn : Type := nat.

(** [req.url] and [req.method]; the body arrives later, chunk by chunk. *)
Record request : Type := { url : string; method : string }.

(** ** The interface to Node and to the engine *)

(** A property value of the object that is serialised as a success
    response: the id, a number, or a value of the engine's result. *)
Inductive jsfield (Payload : Type) : Type :=
| FId (id : idval)
| FNumber (z : Z)
| FPayload (p : Payload).
Arguments FId {Payload} id.
Arguments FNumber {Payload} z.
Arguments FPayload {Payload} p.

(** A plain object as its own properties, in insertion order. *)
Definition object (Payload : Type) : Type := list (string * jsfield Payload).

Class Platform : Type := {
  (** the engine's model handle, [loadModel]'s result *)
  Model : Type;
  (** [`${model}`] *)
  Model_toString : Model -> string;
  (** what [JSON.parse] returns for a grammar *)
  Grammar : Type;
  (** the values inside the engine's result object *)
  Payload : Type;
  (** [url.parse(u, true).query] *)
  url_parse_query : string -> gmap string qvalue;
  (** [JSON.parse]: the parsed value, or [`${error}`] of the SyntaxError it throws *)
  JSON_parse : string -> string + Grammar;
  (** [JSON.stringify] of a plain object *)
  JSON_stringify : object Payload -> string;
  (** [Date.now()]: the value of the n-th reading of the clock *)
  Date_now : nat -> Z;
  (** [path.basename(p, '/')] *)
  path_basename : string -> string;
  (** [+text] when [Number.isInteger(+text)] holds *)
  Number_integer : string -> option Z;
  (** [process.env.PORT] *)
  env_PORT : option string;
}.

(** A value of the object [getArgs().args]: a flag's text, [true] for a flag
    given without a value, or undefined for a flag that was not given. *)
Inductive argvalue : Type :=
| AUndefined
| ABool (b : bool)
| AString (s : string).

Definition arg_truthy (v : argvalue) : bool :=
  match v with
  | AUndefined => false
  | ABool b => b
  | AString s => negb (String.eqb s "")
  end.

Definition arg_toString (v : argvalue) : string :=
  match v with
  | AUndefined => "undefined"
  | ABool true => "true"
  | ABool false => "false"
  | AString s => s
  end.

Record cli_args : Type := {
  arg_model : argvalue;
  arg_port : argvalue;
  arg_debug : argvalue
}.

(** What the engine's promise resolves to: [{ result, latency }]. *)
Record transcriptData `{Platform} : Type := {
  latency : Z;
  result : list (string * Payload)
}.

(** How a synchronous stretch of code ends: it returns, it throws
    ([`${error}`] is all the code ever reads of an exception), or it ends the
    process with [process.exit]. *)
Inductive outcome (A : Type) : Type :=
| Returned (a : A)
| Thrown (error : string)
| Exited (code : Z).
Arguments Returned {A} a.
Arguments Thrown {A} error.
Arguments Exited {A} code.

(** ** What the server does to the outside world *)

Section Server.
Context `{platform : Platform}.

(** The calls the code makes on [res], on the console, on the engine and on
    the process, in the order it makes them. *)
Inductive effect : Type :=
| SetHeader (res : conn) (name value : string)          (* res.setHeader(name, value) *)
| SetStatusCode (res : conn) (statusCode : Z)           (* res.statusCode = statusCode *)
| ResEnd (res : conn) (body : string)                   (* res.end(body) *)
| ConsoleLog (line : string)                            (* console.log(line) *)
| ConsoleUsage (programName : string)                   (* the console.info lines of helpAndExit *)
| TranscriptFromFile (fileName : qvalue) (m : option Model) (grammar : option Grammar)
| TranscriptFromBuffer (buffer : list byte) (m : option Model) (grammar : option Grammar)
| LogLevel (level : Z)                                  (* logLevel(level) *)
| LoadModel (modelDirectory : string)                   (* loadModel(modelDirectory) *)
| FreeModel (m : option Model)                          (* freeModel(model) *)
| Listen (port : string)                                (* server.listen(port, ...) *)
| ProcessOn (event : string).                           (* process.on(event, ...) *)

(** Where a request is parked while the event loop runs something else. *)
Inductive continuation : Type :=
(* lines 269-280: [body] and the 'data' and 'end' listeners that close over
   it, with the variables the 'end' listener uses *)
| BodyListeners (id : idval) (body : list (list byte))
    (requestedModelName requestedGrammar : qvalue)
(* line 302: [await transcriptFromFile(...)] inside responseTranscriptGet *)
| AwaitTranscriptFromFile (id : idval)
(* line 345: [await transcriptFromBuffer(...)] inside responseTranscriptPost *)
| AwaitTranscriptFromBuffer (id : idval).

(** The module's global variables (lines 17-20), the clock readings made so
    far, the parked requests, and the effects so far, oldest first. *)
Record state : Type := {
  debug : bool;
  activeRequests : Z;
  model : option Model;
  modelName : string;
  clock_reads : nat;
  parked : gmap conn continuation;
  trace : list effect
}.

(** ** The monad of a synchronous stretch of code *)

Definition M (A : Type) : Type := state -> outcome A * state.

Definition ret {A} (a : A) : M A := fun s => (Returned a, s).

Definition bind {A B} (m : M A) (f : A -> M B) : M B := fun s =>
  match m s with
  | (Returned a, s') => f a s'
  | (Thrown e, s') => (Thrown e, s')
  | (Exited c, s') => (Exited c, s')
  end.

Declare Scope M_scope.
Delimit Scope M_scope with M.
Bind Scope M_scope with M.
Notation "x ← y ; z" := (bind y (fun x => z))
  (at level 20, y at level 100, z at level 200, only parsing) : M_scope.
Notation "x ;; z" := (bind x (fun _ => z))
  (at level 100, z at level 200, only parsing, right associativity) : M_scope.
Open Scope M_scope.

Definition throw {A} (error : string) : M A := fun s => (Thrown error, s).

(** [process.exit(code)]: nothing after it runs, no [catch] sees it. *)
Definition process_exit {A} (code : Z) : M A := fun s => (Exited code, s).

(** [try { body } catch (error) { handler }]. *)
Definition try_catch {A} (body : M A) (handler : string -> M A) : M A := fun s =>
  match body s with
  | (Thrown e, s') => handler e s'
  | r => r
  end.

Definition get {A} (field : state -> A) : M A := fun s => (Returned (field s), s).

Definition with_trace (tr : list effect) (s : state) : state :=
  {| debug := debug s; activeRequests := activeRequests s; model := model s;
     modelName := modelName s; clock_reads := clock_reads s;
     parked := parked s; trace := tr |}.

Definition with_activeRequests (n : Z) (s : state) : state :=
  {| debug := debug s; activeRequests := n; model := model s;
     modelName := modelName s; clock_reads := clock_reads s;
     parked := parked s; trace := trace s |}.

Definition with_parked (p : gmap conn continuation) (s : state) : state :=
  {| debug := debug s; activeRequests := activeRequests s; model := model s;
     modelName := modelName s; clock_reads := clock_reads s;
     parked := p; trace := trace s |}.

Definition with_clock_reads (n : nat) (s : state) : state :=
  {| debug := debug s; activeRequests := activeRequests s; model := model s;
     modelName := modelName s; clock_reads := n;
     parked := parked s; trace := trace s |}.

Definition emit (e : effect) : M unit := fun s =>
  (Returned tt, with_trace (trace s ++ [e]) s).

Definition set_activeRequests (n : Z) : M unit := fun s =>
  (Returned tt, with_activeRequests n s).

Definition set_parked (p : gmap conn continuation) : M unit := fun s =>
  (Returned tt, with_parked p s).

(** Park the request of [res] until the event loop resumes it. *)
Definition park (res : conn) (k : continuation) : M unit :=
  p ← get parked; set_parked (<[res := k]> p).

Definition unpark (res : conn) : M unit :=
  p ← get parked; set_parked (delete res p).

(** lines 22-24 *)
Definition unixTimeMsecs : M Z := fun s =>
  (Returned (Date_now (clock_reads s)), with_clock_reads (S (clock_reads s)) s).

(** lines 170-181; [time] is [None] when the caller leaves the default. *)
Definition log (text : string) (type : option string) (time : option Z) : M Z :=
  time ← match time with
         | Some t => ret t
         | None => unixTimeMsecs
         end;
  match type with
  | Some ty =>
      if String.eqb ty "" then emit (ConsoleLog (number_toString time +:+ " " +:+ text))
      else emit (ConsoleLog (number_toString time +:+ " " +:+ ty +:+ " " +:+ text))
  | None => emit (ConsoleLog (number_toString time +:+ " " +:+ text))
  end;;
  ret time.

(** The text [`{"error":"${message}"}`] of line 191. *)
Definition error_body (message : string) : string :=
  "{" +:+ dq +:+ "error" +:+ dq +:+ ":" +:+ dq +:+ message +:+ dq +:+ "}".

(** lines 189-193 *)
Definition errorResponse (message : string) (statusCode : Z) (res : conn) : M unit :=
  emit (SetStatusCode res statusCode);;
  emit (ResEnd res (error_body message));;
  log message (Some "ERROR") None;;
  ret tt.

(** lines 195-198 *)
Definition successResponse (requestId : idval) (json : string) (res : conn) : M unit :=
  log ("response " +:+ id_toString requestId +:+ " " +:+ json) None None;;
  emit (ResEnd res json).

(** ** Building the success object *)

(** [o[k] = v]: an existing property keeps its place and takes the new value,
    a new one goes last. *)
Fixpoint obj_set (k : string) (v : jsfield Payload) (o : object Payload) : object Payload :=
  match o with
  | [] => [(k, v)]
  | (k', v') :: o' =>
      if String.eqb k k' then (k, v) :: o' else (k', v') :: obj_set k v o'
  end.

(** [o[k]] *)
Fixpoint obj_get (k : string) (o : object Payload) : option (jsfield Payload) :=
  match o with
  | [] => None
  | (k', v) :: o' => if String.eqb k k' then Some v else obj_get k o'
  end.

(** [{ ...o, ...src }]: the properties of [src] are copied onto [o] in order. *)
Definition spread (o src : object Payload) : object Payload :=
  fold_left (fun acc kv => obj_set (fst kv) (snd kv) acc) src o.

(** The own properties of [transcriptData.result], as the spread reads them. *)
Definition result_properties (data : transcriptData) : object Payload :=
  map (fun kv => (fst kv, FPayload (snd kv))) (result data).

(** lines 313-318 and 356-360: [{ ...{ id }, ...{ latency }, ...transcriptData.result }] *)
Definition response_object (id : idval) (data : transcriptData) : object Payload :=
  spread (spread (spread [] [("id", FId id)]) [("latency", FNumber (latency data))])
         (result_properties data).

(** ** The transcript handlers *)

(** [`${model}`] for the global, which is undefined until the model is loaded. *)
Definition model_template (m : option Model) : string :=
  match m with
  | Some h => Model_toString h
  | None => "undefined"
  end.

(** lines 294-298 and 337-341 *)
Definition count_request_started : M unit :=
  d ← get debug;
  if d then
    n ← get activeRequests;
    set_activeRequests (n + 1);;
    n ← get activeRequests;
    log ("active requests " +:+ number_toString n) (Some "debug") None;;
    ret tt
  else ret tt.

(** lines 304-308 and 347-351 *)
Definition count_request_finished : M unit :=
  d ← get debug;
  if d then
    n ← get activeRequests;
    set_activeRequests (n - 1);;
    n ← get activeRequests;
    log ("active requests " +:+ number_toString n) (Some "debug") None;;
    ret tt
  else ret tt.

(** lines 301 and 344: [requestedGrammar ? JSON.parse(requestedGrammar) : undefined] *)
Definition parse_grammar (requestedGrammar : qvalue) : M (option Grammar) :=
  if truthy requestedGrammar then
    match JSON_parse (qvalue_toString requestedGrammar) with
    | inr parsed => ret (Some parsed)
    | inl error => throw error
    end
  else ret None.

(** What line 301 (and 344) computes from the grammar parameter: the
    grammar handed to the engine, or the error [JSON.parse] throws. *)
Definition grammar_of (requestedGrammar : qvalue) : string + option Grammar :=
  if truthy requestedGrammar then
    match JSON_parse (qvalue_toString requestedGrammar) with
    | inr parsed => inr (Some parsed)
    | inl error => inl error
    end
  else inr None.

(** lines 326-328 and 368-370: the [catch] of both handlers *)
Definition transcript_catch (id : idval) (res : conn) (error : string) : M unit :=
  errorResponse ("id " +:+ id_toString id +:+ " transcript function " +:+ error) 415 res.

(** What an [await] gives back when the promise has settled: the value, or
    the rejection thrown at the [await]. *)
Definition awaited (settled : string + transcriptData) : M transcriptData :=
  match settled with
  | inr data => ret data
  | inl error => throw error
  end.

(** lines 290-302: responseTranscriptGet up to its [await] *)
Definition responseTranscriptGet (id : idval) (requestedFilename : qvalue)
    (requestedModelName requestedGrammar : qvalue) (res : conn) : M unit :=
  try_catch
    (count_request_started;;
     grammar ← parse_grammar requestedGrammar;
     m ← get model;
     emit (TranscriptFromFile requestedFilename m grammar);;
     park res (AwaitTranscriptFromFile id))
    (transcript_catch id res).

(** lines 302-328: responseTranscriptGet from its [await] on *)
Definition responseTranscriptGet_resumed (id : idval)
    (settled : string + transcriptData) (res : conn) : M unit :=
  try_catch
    (data ← awaited settled;
     count_request_finished;;
     let latency := latency data in
     let responseJson := JSON_stringify (response_object id data) in
     d ← get debug;
     (if d then
        log ("latency " +:+ id_toString id +:+ " " +:+ number_toString latency +:+ "ms")
            (Some "debug") None;;
        ret tt
      else ret tt);;
     successResponse id responseJson res)
    (transcript_catch id res).

(** lines 333-345: responseTranscriptPost up to its [await] *)
Definition responseTranscriptPost (id : idval) (buffer : list byte)
    (requestedModelName requestedGrammar : qvalue) (res : conn) : M unit :=
  try_catch
    (count_request_started;;
     grammar ← parse_grammar requestedGrammar;
     m ← get model;
     emit (TranscriptFromBuffer buffer m grammar);;
     park res (AwaitTranscriptFromBuffer id))
    (transcript_catch id res).

(** lines 345-370: responseTranscriptPost from its [await] on *)
Definition responseTranscriptPost_resumed (id : idval)
    (settled : string + transcriptData) (res : conn) : M unit :=
  try_catch
    (data ← awaited settled;
     count_request_finished;;
     let latency := latency data in
     let responseJson := JSON_stringify (response_object id data) in
     d ← get debug;
     (if d then
        log ("latency " +:+ id_toString id +:+ " " +:+ number_toString latency +:+ "ms")
            (Some "debug") None;;
        ret tt
      else ret tt);;
     successResponse id responseJson res)
    (transcript_catch id res).

(** ** The request listener *)


(** line 204: [req.url.match(/^\/transcript/)] *)
Definition url_matches (u : string) : bool := String.prefix "/transcript" u.

(** lines 223 and 256: [requestedId ? requestedId : currentTime] *)
Definition id_or_time (requestedId : qvalue) (currentTime : Z) : idval :=
  if truthy requestedId then IdQuery requestedId else IdTime currentTime.

(** lines 236 and 263: [requestedModelName && (requestedModelName !== modelName)] *)
Definition model_mismatch (requestedModelName : qvalue) (name : string) : bool :=
  truthy requestedModelName && strict_neq requestedModelName name.

(** [`${v ? v : ''}`] in the request log lines *)
Definition template_or_empty (v : qvalue) : string :=
  if truthy v then qvalue_toString v else "".

(** lines 200-287.  The listeners of lines 271-280 are the [BodyListeners]
    the request is parked in; a GET goes on into responseTranscriptGet, which
    runs up to its [await] before the call returns. *)
Definition requestListener (req : request) (res : conn) : M unit :=
  emit (SetHeader res "Content-Type" "application/json");;
  if negb (url_matches (url req)) then
    errorResponse ("path not allowed " +:+ url req) 405 res
  else if String.eqb (method req) "GET" then
    let queryObject := url_parse_query (url req) in
    let requestedModelName := property queryObject "model" in
    let requestedFilename := property queryObject "speech" in
    let requestedGrammar := property queryObject "grammar" in
    let requestedId := property queryObject "id" in
    currentTime ← unixTimeMsecs;
    let id := id_or_time requestedId currentTime in
    log ("request GET " +:+ id_toString id +:+ " " +:+ qvalue_toString requestedFilename +:+ " "
         +:+ template_or_empty requestedModelName +:+ " "
         +:+ template_or_empty requestedGrammar) None (Some currentTime);;
    if negb (truthy requestedFilename) then
      errorResponse ("id " +:+ id_toString id +:+ " " +:+ dq +:+ "speech" +:+ dq
                     +:+ " attribute not found in the body request") 405 res
    else
      mn ← get modelName;
      if model_mismatch requestedModelName mn then
        m ← get model;
        errorResponse ("id " +:+ id_toString id +:+ " Vosk model "
                       +:+ model_template m +:+ " unknown") 404 res
      else
        responseTranscriptGet id requestedFilename requestedModelName requestedGrammar res
  else if String.eqb (method req) "POST" then
    let queryObject := url_parse_query (url req) in
    let requestedModelName := property queryObject "model" in
    let requestedGrammar := property queryObject "grammar" in
    let requestedId := property queryObject "id" in
    currentTime ← unixTimeMsecs;
    let id := id_or_time requestedId currentTime in
    log ("request POST " +:+ id_toString id +:+ " " +:+ "speechBuffer" +:+ " "
         +:+ template_or_empty requestedModelName +:+ " "
         +:+ template_or_empty requestedGrammar) None (Some currentTime);;
    mn ← get modelName;
    if model_mismatch requestedModelName mn then
      m ← get model;
      errorResponse ("id " +:+ id_toString id +:+ " Vosk model "
                     +:+ model_template m +:+ " unknown") 404 res
    else
      park res (BodyListeners id [] requestedModelName requestedGrammar)
  else
    errorResponse ("method not allowed " +:+ method req) 405 res.

(** ** The event loop *)

(** What Node delivers to the server's callbacks. *)
Inductive input : Type :=
| Request (res : conn) (req : request)      (* the server's 'request' event *)
| Data (res : conn) (chunk : list byte)     (* the request's 'data' event *)
| EndOfBody (res : conn)                    (* the request's 'end' event *)
| Settled (res : conn) (settled : string + transcriptData).
                                            (* the engine's promise resolves or rejects *)

(** line 276: [Buffer.concat(body)] *)
Definition Buffer_concat (body : list (list byte)) : list byte := concat body.

(** One turn of the event loop.  An event nobody listens for does nothing. *)
Definition step (i : input) : M unit :=
  match i with
  | Request res req => requestListener req res
  | Data res chunk =>
      p ← get parked;
      match p !! res with
      | Some (BodyListeners id body requestedModelName requestedGrammar) =>
          (* line 271: body.push(chunk) *)
          park res (BodyListeners id (body ++ [chunk]) requestedModelName requestedGrammar)
      | _ => ret tt
      end
  | EndOfBody res =>
      p ← get parked;
      match p !! res with
      | Some (BodyListeners id body requestedModelName requestedGrammar) =>
          (* lines 274-280 *)
          unpark res;;
          let speechAsBuffer := Buffer_concat body in
          responseTranscriptPost id speechAsBuffer requestedModelName requestedGrammar res
      | _ => ret tt
      end
  | Settled res settled =>
      p ← get parked;
      match p !! res with
      | Some (AwaitTranscriptFromFile id) =>
          unpark res;; responseTranscriptGet_resumed id settled res
      | Some (AwaitTranscriptFromBuffer id) =>
          unpark res;; responseTranscriptPost_resumed id settled res
      | _ => ret tt
      end
  end.

(** The event loop over a sequence of inputs.  It stops where a turn throws
    (nothing would catch it) or ends the process. *)
Fixpoint run (inputs : list input) : M unit :=
  match inputs with
  | [] => ret tt
  | i :: rest => step i;; run rest
  end.

(** ** Reading a response off the trace *)

(** [res.statusCode] as last assigned; Node's default is 200. *)
Fixpoint statusCode_from (res : conn) (current : Z) (tr : list effect) : Z :=
  match tr with
  | [] => current
  | SetStatusCode res' c :: tr' =>
      if Nat.eqb res res' then statusCode_from res c tr' else statusCode_from res current tr'
  | _ :: tr' => statusCode_from res current tr'
  end.

Definition statusCode (res : conn) (tr : list effect) : Z := statusCode_from res 200 tr.

(** The bodies passed to [res.end], oldest first. *)
Fixpoint bodies (res : conn) (tr : list effect) : list string :=
  match tr with
  | [] => []
  | ResEnd res' body :: tr' =>
      if Nat.eqb res res' then body :: bodies res tr' else bodies res tr'
  | _ :: tr' => bodies res tr'
  end.

Definition is_engine_call (e : effect) : bool :=
  match e with
  | TranscriptFromFile _ _ _ | TranscriptFromBuffer _ _ _ => true
  | _ => false
  end.

(** The engine invocations, oldest first. *)
Definition engine_calls (tr : list effect) : list effect := List.filter is_engine_call tr.

(** The effects a stretch of code adds to the trace. *)
Definition effects_of {A} (m : M A) (s : state) : list effect :=
  drop (length (trace s)) (trace (snd (m s))).

(** ** Start and shutdown of the process *)

(** line 12: [process.env.PORT || 3000] *)
Definition HTTP_PORT : argvalue :=
  match env_PORT with
  | Some p => if String.eqb p "" then AString "3000" else AString p
  | None => AString "3000"
  end.

(** lines 42-127: the usage text goes to the console, then the process ends
    with code 1.  The text itself is not modelled. *)
Definition helpAndExit {A} (programName : string) : M A :=
  emit (ConsoleUsage programName);;
  process_exit 1.

(** lines 142-158: [(modelDirectory, port, debugLevel)] *)
Definition validateArgs (args : cli_args) (programName : string)
    : M (argvalue * argvalue * argvalue) :=
  let modelDirectory := arg_model args in
  (if negb (arg_truthy modelDirectory) then helpAndExit programName else ret tt);;
  let port := if negb (arg_truthy (arg_port args)) then HTTP_PORT else arg_port args in
  let debugLevel := arg_debug args in
  ret (modelDirectory, port, debugLevel).

(** lines 375-385 *)
Definition shutdown (signal : string) : M unit :=
  log (signal +:+ " received") None None;;
  m ← get model;
  emit (FreeModel m);;
  log "Shutdown done" None None;;
  process_exit 0.

(** What brings the process down, as registered in lines 455-465. *)
Inductive process_event : Type :=
| SIGTERM
| SIGINT
| UncaughtException (err : string).

Definition process_on (ev : process_event) : M unit :=
  match ev with
  | SIGTERM => shutdown "SIGTERM"
  | SIGINT => shutdown "SIGINT"
  | UncaughtException err =>
      log ("there was an uncaught error: " +:+ err) (Some "FATAL") None;;
      shutdown "uncaughtException"
  end.

Definition set_globals (d : bool) (name : string) : M unit := fun s =>
  (Returned tt,
   {| debug := d; activeRequests := activeRequests s; model := model s;
      modelName := name; clock_reads := clock_reads s;
      parked := parked s; trace := trace s |}).

Definition set_model (m : Model) : M unit := fun s =>
  (Returned tt,
   {| debug := debug s; activeRequests := activeRequests s; model := Some m;
      modelName := modelName s; clock_reads := clock_reads s;
      parked := parked s; trace := trace s |}).

(** lines 402-423: [(debug, voskLogLevel)], each undefined when no branch is taken *)
Definition debug_settings (debugLevel : argvalue) : option (bool * Z) :=
  if negb (arg_truthy debugLevel) then Some (false, -1)
  else match debugLevel with
       | ABool true => Some (true, -1)
       | AString text =>
           match Number_integer text with
           | Some level => Some (true, level)
           | None => None
           end
       | _ => None
       end.

(** lines 388-439: main up to its [await loadModel(modelDirectory)]; the
    port is handed to the part after the [await]. *)
Definition main (args : cli_args) : M argvalue :=
  let programName := "voskjshttp" in
  v ← validateArgs args programName;
  let '(modelDirectory, port, debugLevel) := v in
  name ← match modelDirectory with
         | AString dir => ret (path_basename dir)
         | _ => throw "TypeError [ERR_INVALID_ARG_TYPE]"
         end;
  let settings := debug_settings debugLevel in
  set_globals (match settings with Some (d, _) => d | None => false end) name;;
  match settings with
  | Some (_, voskLogLevel) => emit (LogLevel voskLogLevel)
  | None => ret tt
  end;;
  log ("Model path: " +:+ arg_toString modelDirectory) None None;;
  log ("Model name: " +:+ name) None None;;
  log ("HTTP server port: " +:+ arg_toString port) None None;;
  log ("internal debug log: " +:+
       match settings with
       | Some (true, _) => "true"
       | Some (false, _) => "false"
       | None => "undefined"
       end) None None;;
  log ("Vosk log level: " +:+
       match settings with
       | Some (_, voskLogLevel) => number_toString voskLogLevel
       | None => "undefined"
       end) None None;;
  log ("wait loading Vosk model: " +:+ name +:+ " (be patient)") None None;;
  emit (LoadModel (arg_toString modelDirectory));;
  ret port.

(** lines 439-465: main after the [await].  [server_listen] is what Node's
    [server.listen(port, ...)] does with the value it is handed: [None] when
    the call returns, the exception when it throws (a port outside 0..65535,
    a port that is [true]).  The effect [Listen] stands for a call that
    returned; when the call throws, the exception leaves main before line
    455, so that no process handler is registered. *)
Definition main_resumed (server_listen : argvalue -> option string) (port : argvalue)
    (settled : string + (Model * Z)) : M unit :=
  loaded ← match settled with
           | inr l => ret l
           | inl error => throw error
           end;
  set_model (fst loaded);;
  log ("Vosk model loaded in " +:+ number_toString (snd loaded) +:+ " msecs") None None;;
  match server_listen port with
  | None => emit (Listen (arg_toString port))
  | Some error => throw error
  end;;
  emit (ProcessOn "SIGTERM");;
  emit (ProcessOn "SIGINT");;
  emit (ProcessOn "uncaughtException").


(** ** Vocabulary for the statements *)

(** *** The texts the listener builds *)

(** The request id of lines 222-223 and 255-256, for a request that arrives
    in state [s]: the clock is read once, before anything else reads it. *)
Definition request_id (s : state) (req : request) : idval :=
  id_or_time (property (url_parse_query (url req)) "id") (Date_now (clock_reads s)).

(** The message of line 232. *)
Definition speech_not_found (id : idval) : string :=
  "id " +:+ id_toString id +:+ " " +:+ dq +:+ "speech" +:+ dq
  +:+ " attribute not found in the body request".

(** What follows the opening quote of the word speech in the text that
    answers a GET without a speech value. *)
Definition speech_tail : string :=
  "speech" +:+ dq +:+ " attribute not found in the body request" +:+ dq +:+ "}".

(** The message of lines 237 and 264. *)
Definition model_unknown (id : idval) (m : option Model) : string :=
  "id " +:+ id_toString id +:+ " Vosk model " +:+ model_template m +:+ " unknown".

(** The message of lines 327 and 369. *)
Definition transcript_failed (id : idval) (error : string) : string :=
  "id " +:+ id_toString id +:+ " transcript function " +:+ error.

(** The log line of line 226. *)
Definition get_request_line (s : state) (req : request) : string :=
  number_toString (Date_now (clock_reads s)) +:+ " " +:+ "request GET "
  +:+ id_toString (request_id s req) +:+ " "
  +:+ qvalue_toString (property (url_parse_query (url req)) "speech") +:+ " "
  +:+ template_or_empty (property (url_parse_query (url req)) "model") +:+ " "
  +:+ template_or_empty (property (url_parse_query (url req)) "grammar").

(** The log line of line 259. *)
Definition post_request_line (s : state) (req : request) : string :=
  number_toString (Date_now (clock_reads s)) +:+ " " +:+ "request POST "
  +:+ id_toString (request_id s req) +:+ " " +:+ "speechBuffer" +:+ " "
  +:+ template_or_empty (property (url_parse_query (url req)) "model") +:+ " "
  +:+ template_or_empty (property (url_parse_query (url req)) "grammar").

(** The body of the response sent when the engine's promise has settled. *)
Definition response_body (id : idval) (settled : string + transcriptData) : string :=
  match settled with
  | inr data => JSON_stringify (response_object id data)
  | inl error => error_body (transcript_failed id error)
  end.

(** The value the last property named [k] in [src] has. *)
Fixpoint last_value (k : string) (src : object Payload) : option (jsfield Payload) :=
  match src with
  | [] => None
  | (k', v) :: rest =>
      match last_value k rest with
      | Some w => Some w
      | None => if String.eqb k k' then Some v else None
      end
  end.

(** *** The effects of a stretch of code *)

(** The effects of an error response, with the clock read for the [n]-th
    time by its log line: lines 190-192. *)
Definition error_effects (n : nat) (message : string) (statusCode : Z)
    (res : conn) : list effect :=
  [SetStatusCode res statusCode;
   ResEnd res (error_body message);
   ConsoleLog (number_toString (Date_now n) +:+ " " +:+ "ERROR" +:+ " " +:+ message)].

(** The effects of lines 294-298 and 337-341. *)
Definition started_effects (t : state) : list effect :=
  if debug t then
    [ConsoleLog (number_toString (Date_now (clock_reads t)) +:+ " " +:+ "debug" +:+ " "
                 +:+ "active requests " +:+ number_toString (activeRequests t + 1))]
  else [].

(** The clock readings made once lines 294-298 (337-341) have run. *)
Definition clock_after_started (t : state) : nat :=
  if debug t then S (clock_reads t) else clock_reads t.

(** *** The state a turn leaves behind *)

(** The state after a request was refused by the router, before its query
    string was read. *)
Definition rejected (s : state) (res : conn) (message : string) : state :=
  with_trace
    (trace s ++ [SetHeader res "Content-Type" "application/json"]
     ++ error_effects (clock_reads s) message 405 res)
    (with_clock_reads (S (clock_reads s)) s).

(** The state after a request was logged and then refused. *)
Definition refused (s : state) (res : conn) (line message : string) (code : Z) : state :=
  with_trace
    (trace s ++ [SetHeader res "Content-Type" "application/json"; ConsoleLog line]
     ++ error_effects (S (clock_reads s)) message code res)
    (with_clock_reads (S (S (clock_reads s))) s).

(** The state in which a GET that passed both checks enters
    responseTranscriptGet. *)
Definition get_checked (s : state) (res : conn) (req : request) : state :=
  with_trace
    (trace s ++ [SetHeader res "Content-Type" "application/json";
                 ConsoleLog (get_request_line s req)])
    (with_clock_reads (S (clock_reads s)) s).

(** The state a POST that passed the model check leaves behind: the clock
    was read once, two effects were added, and the request is parked with an
    empty [body]. *)
Definition post_parked (s : state) (res : conn) (req : request) : state :=
  with_parked
    (<[res := BodyListeners (request_id s req) []
                (property (url_parse_query (url req)) "model")
                (property (url_parse_query (url req)) "grammar")]> (parked s))
    (with_trace
       (trace s ++ [SetHeader res "Content-Type" "application/json";
                    ConsoleLog (post_request_line s req)])
       (with_clock_reads (S (clock_reads s)) s)).

(** The state in which the 'end' listener of a POST calls
    responseTranscriptPost, whatever chunks came before. *)
Definition post_ended (s : state) (res : conn) (req : request) : state :=
  with_parked (delete res (parked s))
    (with_trace
       (trace s ++ [SetHeader res "Content-Type" "application/json";
                    ConsoleLog (post_request_line s req)])
       (with_clock_reads (S (clock_reads s)) s)).

(** *** What is observed of a run *)

(** How a request is answered: one body; with status 200 it is the
    serialised success object for the engine's data, with any other status
    it is the error text around a message that starts with the id. *)
Definition answered_with (id : idval) (settled : string + transcriptData) (res : conn)
    (new : list effect) : Prop :=
  exists body,
    bodies res new = [body] /\
    ((statusCode res new = 200 /\
      exists data, settled = inr data /\ body = JSON_stringify (response_object id data))
     \/
     (statusCode res new <> 200 /\
      exists tail, body = error_body ("id " +:+ id_toString id +:+ tail))).

Definition is_FreeModel (e : effect) : bool :=
  match e with
  | FreeModel _ => true
  | _ => false
  end.

(** An effect that is not the assignment of a status other than 404, 405
    and 415. *)
Definition allowed_status (e : effect) : bool :=
  match e with
  | SetStatusCode _ code => Z.eqb code 404 || Z.eqb code 405 || Z.eqb code 415
  | _ => true
  end.

(** What every turn keeps: it returns, it leaves the debug flag alone, it
    leaves the counter alone when debug is off, it only adds to the trace,
    and it assigns no status other than 404, 405 and 415. *)
Definition turn_ok (s : state) (r : outcome unit * state) : Prop :=
  fst r = Returned tt /\
  debug (snd r) = debug s /\
  (debug s = false -> activeRequests (snd r) = activeRequests s) /\
  exists new, trace (snd r) = trace s ++ new /\ forallb allowed_status new = true.

(** *** Counting requests *)

(** A request that waits for the engine, between the increment and the
    decrement of the counter. *)
Definition is_awaiting (k : continuation) : bool :=
  match k with
  | AwaitTranscriptFromFile _ | AwaitTranscriptFromBuffer _ => true
  | BodyListeners _ _ _ _ => false
  end.

(** How many parked requests wait for the engine. *)
Definition awaiting (p : gmap conn continuation) : nat :=
  size (filter (fun entry => is_awaiting (snd entry) = true) p).

Definition is_415 (e : effect) : bool :=
  match e with
  | SetStatusCode _ code => Z.eqb code 415
  | _ => false
  end.

(** How many times a response was given the status 415. *)
Definition failures (tr : list effect) : nat := length (List.filter is_415 tr).

(** What the counter is worth once the requests that wait for the engine
    and the failures answered so far are taken off. *)
Definition balance (t : state) : Z :=
  activeRequests t - Z.of_nat (awaiting (parked t)) - Z.of_nat (failures (trace t)).

(** The response object a request arrives on. *)
Definition request_conn (i : input) : gset conn :=
  match i with
  | Request res _ => {[res]}
  | _ => ∅
  end.

(** No request arrives on a response object that was seen before. *)
Fixpoint fresh_requests (seen : gset conn) (inputs : list input) : Prop :=
  match inputs with
  | [] => True
  | Request res _ :: rest => (res ∉ seen) /\ fresh_requests ({[res]} ∪ seen) rest
  | _ :: rest => fresh_requests seen rest
  end.

(** *** Connections side by side *)

(** The response object an input belongs to. *)
Definition input_conn (i : input) : conn :=
  match i with
  | Request res _ | Data res _ | EndOfBody res | Settled res _ => res
  end.

Definition is_Request (i : input) : bool :=
  match i with
  | Request _ _ => true
  | _ => false
  end.

(** The response objects the requests among [inputs] arrive on. *)
Fixpoint requested (inputs : list input) : gset conn :=
  match inputs with
  | [] => ∅
  | i :: rest => request_conn i ∪ requested rest
  end.

(** The chunks of the body of [res] among [inputs], in the order of arrival. *)
Fixpoint chunks_for (res : conn) (inputs : list input) : list (list byte) :=
  match inputs with
  | [] => []
  | Data res' chunk :: rest =>
      if Nat.eqb res' res then chunk :: chunks_for res rest else chunks_for res rest
  | _ :: rest => chunks_for res rest
  end.

(** An input that is a chunk of a body, or that belongs to a connection
    other than [res]. *)
Definition chunk_or_other (res : conn) (i : input) : bool :=
  match i with
  | Data _ _ => true
  | _ => negb (Nat.eqb (input_conn i) res)
  end.

(** An input that is a chunk or the end of the body of [res]. *)
Definition body_event (res : conn) (i : input) : bool :=
  match i with
  | Data res' _ | EndOfBody res' => Nat.eqb res' res
  | _ => false
  end.

(** An engine call is handed the model [m]; any other effect passes. *)
Definition calls_with (m : option Model) (e : effect) : Prop :=
  match e with
  | TranscriptFromFile _ m' _ | TranscriptFromBuffer _ m' _ => m' = m
  | _ => True
  end.

(** A request whose body is still being received. *)
Definition is_receiving (k : continuation) : bool :=
  match k with
  | BodyListeners _ _ _ _ => true
  | _ => false
  end.

(** How many parked requests are receiving their body. *)
Definition receiving (p : gmap conn continuation) : nat :=
  size (filter (fun entry => is_receiving (snd entry) = true) p).

(** What one connection counts for in [receiving]. *)
Definition receives (o : option continuation) : nat :=
  match o with
  | Some k => if is_receiving k then 1 else 0
  | None => 0
  end.

(** What one turn does to the connection of its input: the continuation
    the connection was parked in, the one it is parked in afterwards, and the
    effects of the turn.  One constructor for each way through [step]. *)
Inductive turn : input -> option continuation -> option continuation -> list effect -> Prop :=
(* an event nobody listens for *)
| turn_idle (i : input) (before : option continuation) :
    (forall res req, i <> Request res req) -> turn i before before []
(* a request answered by the listener or by the handler's catch *)
| turn_refused (res : conn) (req : request) (before : option continuation)
    (new : list effect) (body : string) :
    bodies res new = [body] -> engine_calls new = [] ->
    turn (Request res req) before before new
(* a GET that waits for transcriptFromFile *)
| turn_get (res : conn) (req : request) (before : option continuation)
    (new : list effect) (id : idval) (call : effect) :
    bodies res new = [] -> engine_calls new = [call] ->
    turn (Request res req) before (Some (AwaitTranscriptFromFile id)) new
(* a POST whose body listeners are registered *)
| turn_post (res : conn) (req : request) (before : option continuation)
    (new : list effect) (id : idval) (mn g : qvalue) :
    bodies res new = [] -> engine_calls new = [] ->
    turn (Request res req) before (Some (BodyListeners id [] mn g)) new
(* a chunk is pushed onto the body *)
| turn_data (res : conn) (chunk : list byte) (id : idval) (body : list (list byte))
    (mn g : qvalue) :
    turn (Data res chunk) (Some (BodyListeners id body mn g))
      (Some (BodyListeners id (body ++ [chunk]) mn g)) []
(* the body ends and the grammar does not parse *)
| turn_end_failed (res : conn) (id : idval) (body : list (list byte)) (mn g : qvalue)
    (new : list effect) (b : string) :
    bodies res new = [b] -> engine_calls new = [] ->
    turn (EndOfBody res) (Some (BodyListeners id body mn g)) None new
(* the body ends and the request waits for transcriptFromBuffer *)
| turn_end_called (res : conn) (id : idval) (body : list (list byte)) (mn g : qvalue)
    (new : list effect) (m : option Model) (grammar : option Grammar) :
    grammar_of g = inr grammar ->
    bodies res new = [] ->
    engine_calls new = [TranscriptFromBuffer (concat body) m grammar] ->
    turn (EndOfBody res) (Some (BodyListeners id body mn g))
      (Some (AwaitTranscriptFromBuffer id)) new
(* the engine settles and the request is answered *)
| turn_settled (res : conn) (settled : string + transcriptData)
    (k : continuation) (new : list effect) (b : string) :
    is_awaiting k = true ->
    bodies res new = [b] -> engine_calls new = [] ->
    turn (Settled res settled) (Some k) None new.

(** What holds of the answers given since the trace was [base], when the
    response objects [seen] have been in use and requests have arrived on
    [asked]: an unused response object and a parked request have no answer,
    nobody has two, and a request that is no longer parked has one. *)
Definition answers (base : list effect) (seen asked : gset conn) (t : state) : Prop :=
  exists new,
    trace t = base ++ new /\
    dom (parked t) ⊆ seen /\
    (forall res, res ∉ seen -> bodies res new = []) /\
    (forall res, res ∈ dom (parked t) -> bodies res new = []) /\
    (forall res, (length (bodies res new) <= 1)%nat) /\
    (forall res, res ∈ asked -> res ∉ dom (parked t) -> length (bodies res new) = 1%nat).

(** *** The log and the other calls *)

(** Whether the lines logged in [tr] carry, one after the other, the
    readings of the clock from the [n]-th on; when they do, the number of
    the reading that comes next. *)
Fixpoint stamped (n : nat) (tr : list effect) : option nat :=
  match tr with
  | [] => Some n
  | ConsoleLog line :: rest =>
      if String.prefix (number_toString (Date_now n) +:+ " ") line
      then stamped (S n) rest
      else None
  | _ :: rest => stamped n rest
  end.

Definition is_ConsoleLog (e : effect) : bool :=
  match e with
  | ConsoleLog _ => true
  | _ => false
  end.

(** The effects other than the lines logged. *)
Definition calls (tr : list effect) : list effect :=
  List.filter (fun e => negb (is_ConsoleLog e)) tr.

Definition is_Listen (e : effect) : bool :=
  match e with
  | Listen _ => true
  | _ => false
  end.

Definition is_LogLevel (e : effect) : bool :=
  match e with
  | LogLevel _ => true
  | _ => false
  end.

Definition is_ResEnd (e : effect) : bool :=
  match e with
  | ResEnd _ _ => true
  | _ => false
  end.

(** A request that gets as far as its request line: a GET or a POST to the
    transcript endpoint. *)
Definition is_transcript_request (i : input) : bool :=
  match i with
  | Request _ req =>
      url_matches (url req)
      && (String.eqb (method req) "GET" || String.eqb (method req) "POST")
  | _ => false
  end.



End Server.

Arguments Request {platform} res%_nat req.
Arguments Data {platform} res%_nat chunk.
Arguments EndOfBody {platform} res%_nat.
Arguments Settled {platform} res%_nat settled.
Arguments statusCode {platform} res%_nat tr.
Arguments bodies {platform} res%_nat tr.
Arguments chunks_for {platform} res%_nat inputs.
Arguments chunk_or_other {platform} res%_nat i.
Arguments body_event {platform} res%_nat i.

(** ** A concrete platform

    One instance of the interface, to run the server on concrete requests.
    [parse_query] follows [url.parse(u, true).query] on query strings that
    hold no percent escape and no plus sign; [parse_json] knows the two
    grammar texts the examples use: the empty array, which parses, and the
    word oops, which does not. *)
Module Sample.

(** [s] up to the first [c], and what follows that [c], if there is one. *)
Fixpoint cut (c : ascii) (s : string) : string * option string :=
  match s with
  | EmptyString => (EmptyString, None)
  | String a rest =>
      if Ascii.eqb a c then (EmptyString, Some rest)
      else let '(before, after) := cut c rest in (String a before, after)
  end.

(** [s.split(c)] *)
Fixpoint split (c : ascii) (s : string) : list string :=
  match s with
  | EmptyString => [EmptyString]
  | String a rest =>
      if Ascii.eqb a c then EmptyString :: split c rest
      else match split c rest with
           | first :: others => String a first :: others
           | [] => [String a EmptyString]
           end
  end.

(** A repeated key collects its values in an array. *)
Definition add_pair (o : gmap string qvalue) (k v : string) : gmap string qvalue :=
  match o !! k with
  | None | Some QUndefined => <[k := QString v]> o
  | Some (QString v0) => <[k := QArray [v0; v]]> o
  | Some (QArray l) => <[k := QArray (l ++ [v])]> o
  end.

Definition parse_query (u : string) : gmap string qvalue :=
  match snd (cut "?" (fst (cut "#" u))) with
  | None => ∅
  | Some qs =>
      fold_left
        (fun o part =>
           if String.eqb part "" then o
           else let '(k, v) := cut "=" part in add_pair o k (default "" v))
        (split "&" qs) ∅
  end.

Definition parse_json (text : string) : string + list string :=
  if String.eqb text "[]" then inr []
  else inl "SyntaxError: Unexpected token".

Definition stringify_field (f : jsfield string) : string :=
  match f with
  | FId (IdQuery q) => dq +:+ qvalue_toString q +:+ dq
  | FId (IdTime t) => number_toString t
  | FNumber z => number_toString z
  | FPayload p => p
  end.

Fixpoint stringify_properties (o : object string) : string :=
  match o with
  | [] => ""
  | [(k, v)] => dq +:+ k +:+ dq +:+ ":" +:+ stringify_field v
  | (k, v) :: rest =>
      dq +:+ k +:+ dq +:+ ":" +:+ stringify_field v +:+ "," +:+ stringify_properties rest
  end.

Definition stringify (o : object string) : string :=
  "{" +:+ stringify_properties o +:+ "}".

Definition last_segment (p : string) : string :=
  List.last (List.filter (fun seg => negb (String.eqb seg "")) (split "/" p)) "".

#[export] Instance platform : Platform := {|
  Model := string;
  Model_toString := fun _ => "[object Object]";
  Grammar := list string;
  Payload := string;
  url_parse_query := parse_query;
  JSON_parse := parse_json;
  JSON_stringify := stringify;
  Date_now := fun n => 1620060067830 + Z.of_nat n;
  path_basename := last_segment;
  Number_integer := fun text => if String.eqb text "2" then Some 2 else None;
  env_PORT := None
|}.

(** The server after main has loaded the model [small-en]. *)
Definition started (d : bool) : state :=
  {| debug := d; activeRequests := 0; model := Some "small-en";
     modelName := "small-en"; clock_reads := 0; parked := ∅; trace := [] |}.

(** The module as Node has evaluated it, before main runs (lines 17-20);
    debug and modelName are undefined until main assigns them. *)
Definition at_load : state :=
  {| debug := false; activeRequests := 0; model := None;
     modelName := "undefined"; clock_reads := 0; parked := ∅; trace := [] |}.

(** The arguments of [--model=../models/small-en], with what is given for
    the port and for debug. *)
Definition argv (port debug : argvalue) : cli_args :=
  {| arg_model := AString "../models/small-en"; arg_port := port; arg_debug := debug |}.

(** [server.listen] on the values the examples hand it: a text of decimal
    digits is a port, accepted up to 65535 and thrown back above; [true],
    the value of a flag without one, is no port. *)
Definition listen_ (port : argvalue) : option string :=
  match port with
  | AString text =>
      match NilEmpty.uint_of_string text with
      | Some n =>
          if Z.leb (Z.of_uint n) 65535 then None
          else Some "RangeError [ERR_SOCKET_BAD_PORT]"
      | None => None
      end
  | _ => Some "TypeError [ERR_INVALID_ARG_VALUE]"
  end.

Definition get_ (u : string) : request := {| url := u; method := "GET" |}.
Definition post_ (u : string) : request := {| url := u; method := "POST" |}.

End Sample.

(** * Properties *)

Section Facts.
Context `{platform : Platform}.

(** Symbolic execution of a synchronous stretch on an arbitrary state. *)
Ltac exec :=
  unfold effects_of, step, requestListener, responseTranscriptGet, responseTranscriptPost,
    responseTranscriptGet_resumed, responseTranscriptPost_resumed,
    transcript_catch, parse_grammar, awaited, count_request_started,
    count_request_finished, errorResponse, successResponse, log,
    unixTimeMsecs, park, unpark, set_parked, set_activeRequests, emit, get,
    bind, ret, throw, process_exit, try_catch;
  simpl.

(** Brings [trace s ++ [a] ++ [b] ...] into the form [trace s ++ new]. *)
Ltac new_effects :=
  unfold effects_of; simpl; rewrite <- ?app_assoc; simpl;
  rewrite ?drop_app_length; simpl.

(** *** Running the event loop *)

Lemma effects_of_app {A} (m : M A) (s : state) (new : list effect) :
  trace (snd (m s)) = trace s ++ new -> effects_of m s = new.
Proof. intros E. unfold effects_of. rewrite E. apply drop_app_length. Qed.

Lemma eqb_GET_POST (m : string) :
  m <> "GET" -> m <> "POST" -> String.eqb m "GET" = false /\ String.eqb m "POST" = false.
Proof. intros H1 H2. split; apply String.eqb_neq; assumption. Qed.

Lemma run_cons (i : input) (rest : list input) (s : state) :
  run (i :: rest) s =
  match step i s with
  | (Returned _, s') => run rest s'
  | (Thrown e, s') => (Thrown e, s')
  | (Exited c, s') => (Exited c, s')
  end.
Proof. reflexivity. Qed.

Lemma run_cons_returned (i : input) (rest : list input) (s s' : state) :
  step i s = (Returned tt, s') -> run (i :: rest) s = run rest s'.
Proof. intros E. rewrite run_cons, E. reflexivity. Qed.

Lemma run_request_returned (res : conn) (req : request) (rest : list input)
    (s s' : state) :
  requestListener req res s = (Returned tt, s') ->
  run (Request res req :: rest) s = run rest s'.
Proof. apply (run_cons_returned (Request res req)). Qed.

(** An event for a connection that is not parked does nothing. *)
Lemma step_Data_idle (t : state) (res : conn) (chunk : list byte) :
  parked t !! res = None -> step (Data res chunk) t = (Returned tt, t).
Proof. intros E. unfold step, bind, get, ret. rewrite E. reflexivity. Qed.

Lemma step_EndOfBody_idle (t : state) (res : conn) :
  parked t !! res = None -> step (EndOfBody res) t = (Returned tt, t).
Proof. intros E. unfold step, bind, get, ret. rewrite E. reflexivity. Qed.

Lemma step_Settled_idle (t : state) (res : conn) (settled : string + transcriptData) :
  parked t !! res = None -> step (Settled res settled) t = (Returned tt, t).
Proof. intros E. unfold step, bind, get, ret. rewrite E. reflexivity. Qed.

Lemma run_body_idle (t : state) (res : conn) (chunks : list (list byte)) :
  parked t !! res = None ->
  run (map (Data res) chunks ++ [EndOfBody res]) t = (Returned tt, t).
Proof.
  intros E. induction chunks as [| c chunks IH]; simpl map; simpl app.
  - rewrite (run_cons_returned _ _ _ _ (step_EndOfBody_idle t res E)). reflexivity.
  - rewrite (run_cons_returned _ _ _ _ (step_Data_idle t res c E)). exact IH.
Qed.

(** *** The checks of the listener *)

Lemma property_missing (q : gmap string qvalue) (key : string) :
  q !! key = None -> property q key = QUndefined.
Proof. intros E. unfold property. rewrite E. reflexivity. Qed.

Lemma model_mismatch_true (requested : qvalue) (name : string) :
  truthy requested = true -> requested <> QString name ->
  model_mismatch requested name = true.
Proof.
  intros Ht Hne. unfold model_mismatch. rewrite Ht. simpl.
  destruct requested as [| r | l]; simpl; try reflexivity.
  apply negb_true_iff, String.eqb_neq. congruence.
Qed.

Lemma parse_grammar_grammar_of (requestedGrammar : qvalue) (s : state) :
  parse_grammar requestedGrammar s =
  match grammar_of requestedGrammar with
  | inr grammar => (Returned grammar, s)
  | inl error => (Thrown error, s)
  end.
Proof.
  unfold parse_grammar, grammar_of.
  destruct (truthy requestedGrammar); [| reflexivity].
  destruct (JSON_parse (qvalue_toString requestedGrammar)); reflexivity.
Qed.

Lemma bind_ret_tt (m : M unit) (s : state) : bind m (fun _ => ret tt) s = m s.
Proof. unfold bind, ret. destruct (m s) as [[[] | e | c] t]; reflexivity. Qed.

Lemma run_app (l1 l2 : list input) (s : state) :
  run (l1 ++ l2) s = bind (run l1) (fun _ => run l2) s.
Proof.
  revert s. induction l1 as [| i l1 IH]; intros s.
  - reflexivity.
  - simpl app. rewrite !run_cons. unfold bind at 1. rewrite run_cons.
    destruct (step i s) as [[[] | e | c] t]; try reflexivity.
    rewrite IH. reflexivity.
Qed.

(** *** The body of a POST *)

Lemma with_parked_with_parked (p p' : gmap conn continuation) (t : state) :
  with_parked p (with_parked p' t) = with_parked p t.
Proof. reflexivity. Qed.

(** The listeners of lines 271-280 at work: every chunk is pushed onto
    [body], and at the end of the stream responseTranscriptPost is called
    with the concatenation. *)
Lemma run_body (t : state) (res : conn) (id : idval) (body chunks : list (list byte))
    (requestedModelName requestedGrammar : qvalue) :
  parked t !! res = Some (BodyListeners id body requestedModelName requestedGrammar) ->
  run (map (Data res) chunks ++ [EndOfBody res]) t =
  responseTranscriptPost id (concat (body ++ chunks)) requestedModelName requestedGrammar res
    (with_parked (delete res (parked t)) t).
Proof.
  revert t body. induction chunks as [| c chunks IH]; intros t body E.
  - simpl map. simpl app. rewrite app_nil_r.
    change (run [EndOfBody res] t) with (bind (step (EndOfBody res)) (fun _ => ret tt) t).
    rewrite bind_ret_tt. unfold step, bind, get. rewrite E. reflexivity.
  - simpl map. simpl app. rewrite run_cons.
    assert (step (Data res c) t =
            (Returned tt,
             with_parked (<[res := BodyListeners id (body ++ [c]) requestedModelName
                                     requestedGrammar]> (parked t)) t)) as ->.
    { unfold step, bind, get. rewrite E. reflexivity. }
    rewrite (IH _ (body ++ [c])).
    + simpl parked. rewrite delete_insert_eq, with_parked_with_parked, <- app_assoc.
      reflexivity.
    + simpl parked. apply lookup_insert_eq.
Qed.

Lemma requestListener_post (s : state) (res : conn) (req : request) :
  url_matches (url req) = true ->
  method req = "POST" ->
  model_mismatch (property (url_parse_query (url req)) "model") (modelName s) = false ->
  requestListener req res s = (Returned tt, post_parked s res req).
Proof.
  intros Hpath Hmethod Hmis. exec. rewrite Hpath, Hmethod. simpl. rewrite Hmis.
  unfold post_parked, with_parked, with_trace, with_clock_reads. simpl.
  rewrite <- app_assoc. reflexivity.
Qed.

(** responseTranscriptPost up to its [await]: it never throws; it calls the
    engine with [buffer] exactly when the grammar is there, and answers 415
    otherwise. *)
Lemma responseTranscriptPost_effects (t : state) (id : idval) (buffer : list byte)
    (requestedModelName requestedGrammar : qvalue) (res : conn) :
  let r := responseTranscriptPost id buffer requestedModelName requestedGrammar res t in
  fst r = Returned tt /\
  trace (snd r) =
    trace t ++ started_effects t ++
    match grammar_of requestedGrammar with
    | inr grammar => [TranscriptFromBuffer buffer (model t) grammar]
    | inl error =>
        error_effects (clock_after_started t) (transcript_failed id error) 415 res
    end /\
  parked (snd r) =
    match grammar_of requestedGrammar with
    | inr _ => <[res := AwaitTranscriptFromBuffer id]> (parked t)
    | inl _ => parked t
    end /\
  activeRequests (snd r) = (if debug t then activeRequests t + 1 else activeRequests t) /\
  debug (snd r) = debug t.
Proof.
  cbv zeta.
  unfold started_effects, clock_after_started, error_effects, transcript_failed, grammar_of.
  exec.
  destruct (debug t) eqn:D; simpl;
    (destruct (truthy requestedGrammar); simpl;
     [destruct (JSON_parse (qvalue_toString requestedGrammar)); simpl |]);
    rewrite ?D; rewrite <- ?app_assoc; simpl; auto.
Qed.

Lemma run_post (s : state) (res : conn) (req : request) (chunks : list (list byte)) :
  url_matches (url req) = true ->
  method req = "POST" ->
  model_mismatch (property (url_parse_query (url req)) "model") (modelName s) = false ->
  run (Request res req :: map (Data res) chunks ++ [EndOfBody res]) s =
  responseTranscriptPost (request_id s req) (concat chunks)
    (property (url_parse_query (url req)) "model")
    (property (url_parse_query (url req)) "grammar") res (post_ended s res req).
Proof.
  intros Hpath Hmethod Hmis.
  rewrite (run_cons_returned _ _ s (post_parked s res req)).
  - rewrite (run_body _ res (request_id s req) [] chunks
               (property (url_parse_query (url req)) "model")
               (property (url_parse_query (url req)) "grammar")).
    + unfold post_parked, post_ended. simpl parked.
      rewrite delete_insert_eq. reflexivity.
    + unfold post_parked. simpl parked. apply lookup_insert_eq.
  - apply requestListener_post; assumption.
Qed.

(** *** Reading the trace *)

Lemma engine_calls_app (tr tr' : list effect) :
  engine_calls (tr ++ tr') = engine_calls tr ++ engine_calls tr'.
Proof. unfold engine_calls. apply List.filter_app. Qed.

Lemma engine_calls_started (t : state) : engine_calls (started_effects t) = [].
Proof. unfold started_effects. destruct (debug t); reflexivity. Qed.

Lemma statusCode_from_app (res : conn) (current : Z) (tr tr' : list effect) :
  statusCode_from res current (tr ++ tr') =
  statusCode_from res (statusCode_from res current tr) tr'.
Proof.
  revert current. induction tr as [| e tr IH]; intros current; [reflexivity |].
  destruct e; simpl; try apply IH. destruct (Nat.eqb res res0); apply IH.
Qed.

Lemma statusCode_app (res : conn) (tr tr' : list effect) :
  statusCode res (tr ++ tr') = statusCode_from res (statusCode res tr) tr'.
Proof. apply statusCode_from_app. Qed.

Lemma bodies_app (res : conn) (tr tr' : list effect) :
  bodies res (tr ++ tr') = bodies res tr ++ bodies res tr'.
Proof.
  induction tr as [| e tr IH]; [reflexivity |].
  destruct e; simpl; try apply IH. destruct (Nat.eqb res res0); simpl; rewrite IH; reflexivity.
Qed.

Lemma statusCode_from_started (res : conn) (current : Z) (t : state) :
  statusCode_from res current (started_effects t) = current.
Proof. unfold started_effects. destruct (debug t); reflexivity. Qed.

Lemma bodies_started (res : conn) (t : state) : bodies res (started_effects t) = [].
Proof. unfold started_effects. destruct (debug t); reflexivity. Qed.

Lemma error_effects_observed (res : conn) (current : Z) (n : nat) (message : string)
    (code : Z) :
  statusCode_from res current (error_effects n message code res) = code /\
  bodies res (error_effects n message code res) = [error_body message] /\
  engine_calls (error_effects n message code res) = [].
Proof. unfold error_effects. simpl. rewrite Nat.eqb_refl. auto. Qed.

(** What errorResponse does. *)
Lemma errorResponse_effects (message : string) (code : Z) (res : conn) (t : state) :
  fst (errorResponse message code res t) = Returned tt /\
  effects_of (errorResponse message code res) t =
    error_effects (clock_reads t) message code res.
Proof. exec. new_effects. auto. Qed.

(** *** A GET up to its await *)

Lemma requestListener_get (s : state) (res : conn) (req : request) :
  url_matches (url req) = true ->
  method req = "GET" ->
  truthy (property (url_parse_query (url req)) "speech") = true ->
  model_mismatch (property (url_parse_query (url req)) "model") (modelName s) = false ->
  requestListener req res s =
  responseTranscriptGet (request_id s req)
    (property (url_parse_query (url req)) "speech")
    (property (url_parse_query (url req)) "model")
    (property (url_parse_query (url req)) "grammar") res (get_checked s res req).
Proof.
  intros Hpath Hmethod Hspeech Hmis.
  unfold requestListener, bind at 1, emit at 1. rewrite Hpath, Hmethod. simpl.
  unfold bind at 1, unixTimeMsecs at 1. unfold bind at 1. unfold log, bind, ret, emit. simpl.
  rewrite Hspeech. simpl. unfold get. simpl. rewrite Hmis.
  unfold get_checked, with_trace, with_clock_reads. simpl. rewrite <- app_assoc. reflexivity.
Qed.

(** responseTranscriptGet up to its [await]: it never throws; it calls the
    engine when the grammar is there, and answers 415 otherwise. *)
Lemma responseTranscriptGet_effects (t : state) (id : idval)
    (requestedFilename requestedModelName requestedGrammar : qvalue) (res : conn) :
  let r := responseTranscriptGet id requestedFilename requestedModelName requestedGrammar
             res t in
  fst r = Returned tt /\
  trace (snd r) =
    trace t ++ started_effects t ++
    match grammar_of requestedGrammar with
    | inr grammar => [TranscriptFromFile requestedFilename (model t) grammar]
    | inl error =>
        error_effects (clock_after_started t) (transcript_failed id error) 415 res
    end /\
  parked (snd r) =
    match grammar_of requestedGrammar with
    | inr _ => <[res := AwaitTranscriptFromFile id]> (parked t)
    | inl _ => parked t
    end /\
  activeRequests (snd r) = (if debug t then activeRequests t + 1 else activeRequests t) /\
  debug (snd r) = debug t.
Proof.
  cbv zeta.
  unfold started_effects, clock_after_started, error_effects, transcript_failed, grammar_of.
  exec.
  destruct (debug t) eqn:D; simpl;
    (destruct (truthy requestedGrammar); simpl;
     [destruct (JSON_parse (qvalue_toString requestedGrammar)); simpl |]);
    rewrite ?D; rewrite <- ?app_assoc; simpl; auto.
Qed.

Lemma grammar_of_invalid (requestedGrammar : qvalue) (error : string) :
  truthy requestedGrammar = true ->
  JSON_parse (qvalue_toString requestedGrammar) = inl error ->
  grammar_of requestedGrammar = inl error.
Proof. intros Ht Hp. unfold grammar_of. rewrite Ht, Hp. reflexivity. Qed.

(** What a handler's [catch] does with the error it caught. *)
Lemma transcript_catch_effects (id : idval) (res : conn) (error : string) (t : state) :
  fst (transcript_catch id res error t) = Returned tt /\
  effects_of (transcript_catch id res error) t =
    error_effects (clock_reads t) (transcript_failed id error) 415 res.
Proof. unfold transcript_catch. apply errorResponse_effects. Qed.

(** *** The success object *)

Lemma obj_get_set (k k' : string) (v : jsfield Payload) (o : object Payload) :
  obj_get k (obj_set k' v o) = if String.eqb k k' then Some v else obj_get k o.
Proof.
  induction o as [| [k0 v0] o IH]; simpl.
  - destruct (String.eqb k k'); reflexivity.
  - destruct (String.eqb k' k0) eqn:E0; simpl.
    + apply String.eqb_eq in E0. subst k0.
      destruct (String.eqb k k'); reflexivity.
    + destruct (String.eqb k k0) eqn:E1.
      * apply String.eqb_eq in E1. subst k0.
        rewrite String.eqb_sym in E0. rewrite E0. reflexivity.
      * exact IH.
Qed.

Lemma obj_get_spread (k : string) (o src : object Payload) :
  obj_get k (spread o src) =
  match last_value k src with
  | Some v => Some v
  | None => obj_get k o
  end.
Proof.
  unfold spread. revert o. induction src as [| [k' v'] src IH]; intros o; simpl.
  - reflexivity.
  - rewrite IH. destruct (last_value k src); [reflexivity |].
    rewrite obj_get_set. destruct (String.eqb k k'); reflexivity.
Qed.

Lemma last_value_absent (k : string) (src : object Payload) :
  ~ In k (map fst src) -> last_value k src = None.
Proof.
  induction src as [| [k' v] src IH]; simpl; intros H; [reflexivity |].
  rewrite IH by tauto.
  destruct (String.eqb k k') eqn:E; [| reflexivity].
  apply String.eqb_eq in E. subst. tauto.
Qed.

Lemma last_value_present (k : string) (v : jsfield Payload) (src : object Payload) :
  List.NoDup (map fst src) -> In (k, v) src -> last_value k src = Some v.
Proof.
  induction src as [| [k' v'] src IH]; simpl; intros Hnd Hin; [tauto |].
  apply List.NoDup_cons_iff in Hnd as [Hnot Hnd].
  destruct Hin as [Heq | Hin].
  - injection Heq as -> ->. rewrite last_value_absent by exact Hnot.
    rewrite String.eqb_refl. reflexivity.
  - rewrite (IH Hnd Hin). reflexivity.
Qed.

Lemma result_properties_keys (data : transcriptData) :
  map fst (result_properties data) = map fst (result data).
Proof. unfold result_properties. rewrite map_map. reflexivity. Qed.

(** What the object of lines 313-318 holds: an id and a latency in every
    case, the request's id and the engine's latency unless the result has
    properties of these names, and every property of the result. *)
Lemma response_object_fields (id : idval) (data : transcriptData) :
  is_Some (obj_get "id" (response_object id data)) /\
  is_Some (obj_get "latency" (response_object id data)) /\
  (~ In "id" (map fst (result data)) ->
   obj_get "id" (response_object id data) = Some (FId id)) /\
  (~ In "latency" (map fst (result data)) ->
   obj_get "latency" (response_object id data) = Some (FNumber (latency data))) /\
  (List.NoDup (map fst (result data)) ->
   forall (k : string) (p : Payload),
     In (k, p) (result data) -> obj_get k (response_object id data) = Some (FPayload p)).
Proof.
  unfold response_object. repeat split.
  - rewrite obj_get_spread. destruct (last_value "id" (result_properties data)); eauto.
  - rewrite obj_get_spread. destruct (last_value "latency" (result_properties data)); eauto.
  - intros H. rewrite obj_get_spread, last_value_absent; [reflexivity |].
    rewrite result_properties_keys. exact H.
  - intros H. rewrite obj_get_spread, last_value_absent; [reflexivity |].
    rewrite result_properties_keys. exact H.
  - intros Hnd k p Hin. rewrite obj_get_spread.
    rewrite (last_value_present k (FPayload p)); [reflexivity | |].
    + rewrite result_properties_keys. exact Hnd.
    + unfold result_properties. apply in_map_iff. exists (k, p). auto.
Qed.

(** *** Requests that are answered at once *)

Lemma requestListener_get_no_speech (s : state) (res : conn) (req : request) :
  url_matches (url req) = true ->
  method req = "GET" ->
  truthy (property (url_parse_query (url req)) "speech") = false ->
  requestListener req res s =
  (Returned tt,
   refused s res (get_request_line s req) (speech_not_found (request_id s req)) 405).
Proof.
  intros Hpath Hmethod Hspeech. exec. rewrite Hpath, Hmethod. simpl. rewrite Hspeech. simpl.
  unfold refused, with_trace, with_clock_reads. simpl. rewrite <- !app_assoc. reflexivity.
Qed.

Lemma requestListener_get_mismatch (s : state) (res : conn) (req : request) :
  url_matches (url req) = true ->
  method req = "GET" ->
  truthy (property (url_parse_query (url req)) "speech") = true ->
  model_mismatch (property (url_parse_query (url req)) "model") (modelName s) = true ->
  requestListener req res s =
  (Returned tt,
   refused s res (get_request_line s req) (model_unknown (request_id s req) (model s)) 404).
Proof.
  intros Hpath Hmethod Hspeech Hmis. exec. rewrite Hpath, Hmethod. simpl.
  rewrite Hspeech. simpl. rewrite Hmis.
  unfold refused, with_trace, with_clock_reads. simpl. rewrite <- !app_assoc. reflexivity.
Qed.

Lemma requestListener_post_mismatch (s : state) (res : conn) (req : request) :
  url_matches (url req) = true ->
  method req = "POST" ->
  model_mismatch (property (url_parse_query (url req)) "model") (modelName s) = true ->
  requestListener req res s =
  (Returned tt,
   refused s res (post_request_line s req) (model_unknown (request_id s req) (model s)) 404).
Proof.
  intros Hpath Hmethod Hmis. exec. rewrite Hpath, Hmethod. simpl. rewrite Hmis.
  unfold refused, with_trace, with_clock_reads. simpl. rewrite <- !app_assoc. reflexivity.
Qed.

Lemma run_settled_idle (t : state) (res : conn) (settled : string + transcriptData) :
  parked t !! res = None -> run [Settled res settled] t = (Returned tt, t).
Proof.
  intros E. rewrite (run_cons_returned _ _ _ _ (step_Settled_idle t res settled E)).
  reflexivity.
Qed.

(** *** The engine settles *)

Lemma step_Settled_resumes (t : state) (res : conn) (id : idval)
    (settled : string + transcriptData) :
  parked t !! res = Some (AwaitTranscriptFromFile id) \/
  parked t !! res = Some (AwaitTranscriptFromBuffer id) ->
  let r := step (Settled res settled) t in
  fst r = Returned tt /\
  (exists new,
     trace (snd r) = trace t ++ new /\
     bodies res new = [response_body id settled] /\
     (forall current, statusCode_from res current new =
                      match settled with inr _ => current | inl _ => 415 end) /\
     engine_calls new = [] /\
     forallb allowed_status new = true /\
     failures new = match settled with inr _ => 0%nat | inl _ => 1%nat end) /\
  parked (snd r) = delete res (parked t) /\
  activeRequests (snd r) =
    match settled with
    | inr _ => if debug t then activeRequests t - 1 else activeRequests t
    | inl _ => activeRequests t
    end /\
  debug (snd r) = debug t.
Proof.
  intros E. cbv zeta. unfold response_body, transcript_failed.
  destruct E as [E | E]; exec; rewrite E; simpl;
    (destruct settled as [error | data]; simpl;
     [| destruct (debug t) eqn:D; simpl; rewrite ?D; simpl]);
    (split; [reflexivity |]);
    (split; [eexists; rewrite <- ?app_assoc; simpl;
             (split; [reflexivity |]); simpl; rewrite ?Nat.eqb_refl;
             repeat split; reflexivity |]);
    rewrite ?D; auto.
Qed.

(** *** Every turn of the event loop *)

Lemma requestListener_other_path (s : state) (res : conn) (req : request) :
  url_matches (url req) = false ->
  requestListener req res s =
  (Returned tt, rejected s res ("path not allowed " +:+ url req)).
Proof.
  intros Hpath. exec. rewrite Hpath. simpl.
  unfold rejected, with_trace, with_clock_reads. simpl. rewrite <- !app_assoc. reflexivity.
Qed.

Lemma requestListener_other_method (s : state) (res : conn) (req : request) :
  url_matches (url req) = true ->
  String.eqb (method req) "GET" = false ->
  String.eqb (method req) "POST" = false ->
  requestListener req res s =
  (Returned tt, rejected s res ("method not allowed " +:+ method req)).
Proof.
  intros Hpath Hget Hpost. exec. rewrite Hpath, Hget, Hpost. simpl.
  unfold rejected, with_trace, with_clock_reads. simpl. rewrite <- !app_assoc. reflexivity.
Qed.

Lemma allowed_started (t : state) : forallb allowed_status (started_effects t) = true.
Proof. unfold started_effects. destruct (debug t); reflexivity. Qed.

Lemma turn_ok_same (s : state) : turn_ok s (Returned tt, s).
Proof.
  unfold turn_ok. simpl. repeat split; auto. exists []. rewrite app_nil_r. auto.
Qed.

Lemma turn_ok_handler (s t : state) (r : outcome unit * state)
    (call : option Grammar -> effect) (new0 : list effect) (id : idval) (res : conn)
    (g : string + option Grammar) :
  (forall grammar, allowed_status (call grammar) = true) ->
  forallb allowed_status new0 = true ->
  debug t = debug s ->
  activeRequests t = activeRequests s ->
  trace t = trace s ++ new0 ->
  fst r = Returned tt ->
  trace (snd r) =
    trace t ++ started_effects t ++
    match g with
    | inr grammar => [call grammar]
    | inl error => error_effects (clock_after_started t) (transcript_failed id error) 415 res
    end ->
  activeRequests (snd r) = (if debug t then activeRequests t + 1 else activeRequests t) ->
  debug (snd r) = debug t ->
  turn_ok s r.
Proof.
  intros Hcall Hnew0 Hd Ha Ht Hret Htrace Hactive Hdebug. unfold turn_ok.
  split; [exact Hret |]. split; [congruence |]. split.
  - intros D. rewrite Hactive, Hd, D. exact Ha.
  - eexists. rewrite Htrace, Ht, <- app_assoc. split; [reflexivity |].
    rewrite !forallb_app, Hnew0, allowed_started. simpl.
    destruct g; simpl; [reflexivity | rewrite Hcall; reflexivity].
Qed.

Lemma step_ok (s : state) (i : input) : turn_ok s (step i s).
Proof.
  destruct i as [res req | res chunk | res | res settled].
  - (* a request arrives *)
    change (step (Request res req) s) with (requestListener req res s).
    destruct (url_matches (url req)) eqn:Hpath.
    2:{ rewrite (requestListener_other_path s res req Hpath).
        unfold turn_ok, rejected. simpl. repeat split; auto. eexists. split; reflexivity. }
    destruct (String.eqb (method req) "GET") eqn:Hget.
    + apply String.eqb_eq in Hget.
      destruct (truthy (property (url_parse_query (url req)) "speech")) eqn:Hspeech.
      2:{ rewrite (requestListener_get_no_speech s res req Hpath Hget Hspeech).
          unfold turn_ok, refused. simpl. repeat split; auto. eexists. split; reflexivity. }
      destruct (model_mismatch (property (url_parse_query (url req)) "model")
                  (modelName s)) eqn:Hmis.
      { rewrite (requestListener_get_mismatch s res req Hpath Hget Hspeech Hmis).
        unfold turn_ok, refused. simpl. repeat split; auto. eexists. split; reflexivity. }
      rewrite (requestListener_get s res req Hpath Hget Hspeech Hmis).
      destruct (responseTranscriptGet_effects (get_checked s res req) (request_id s req)
                  (property (url_parse_query (url req)) "speech")
                  (property (url_parse_query (url req)) "model")
                  (property (url_parse_query (url req)) "grammar") res)
        as (Hret & Htrace & _ & Hactive & Hdebug).
      eapply (turn_ok_handler s (get_checked s res req) _
                (TranscriptFromFile (property (url_parse_query (url req)) "speech")
                   (model (get_checked s res req))));
        try eassumption; try reflexivity.
      reflexivity.
    + destruct (String.eqb (method req) "POST") eqn:Hpost.
      2:{ rewrite (requestListener_other_method s res req Hpath Hget Hpost).
          unfold turn_ok, rejected. simpl. repeat split; auto. eexists. split; reflexivity. }
      apply String.eqb_eq in Hpost.
      destruct (model_mismatch (property (url_parse_query (url req)) "model")
                  (modelName s)) eqn:Hmis.
      { rewrite (requestListener_post_mismatch s res req Hpath Hpost Hmis).
        unfold turn_ok, refused. simpl. repeat split; auto. eexists. split; reflexivity. }
      rewrite (requestListener_post s res req Hpath Hpost Hmis).
      unfold turn_ok, post_parked. simpl. repeat split; auto. eexists. split; reflexivity.
  - (* a chunk arrives *)
    unfold step, bind, get.
    destruct (parked s !! res) as [[id body m g | id | id] |]; try apply turn_ok_same.
    unfold park, bind, get, set_parked. simpl.
    unfold turn_ok. simpl. repeat split; auto. exists []. rewrite app_nil_r. auto.
  - (* the body ends *)
    unfold step. unfold bind at 1. unfold get at 1.
    destruct (parked s !! res) as [[id body m g | id | id] |]; try apply turn_ok_same.
    unfold bind at 1. unfold unpark, bind, get, set_parked. simpl.
    destruct (responseTranscriptPost_effects (with_parked (delete res (parked s)) s) id
                (Buffer_concat body) m g res)
      as (Hret & Htrace & _ & Hactive & Hdebug).
    eapply (turn_ok_handler s (with_parked (delete res (parked s)) s) _
              (TranscriptFromBuffer (Buffer_concat body)
                 (model (with_parked (delete res (parked s)) s))) []);
      try eassumption; try reflexivity.
    simpl. rewrite app_nil_r. reflexivity.
  - (* the engine settles *)
    destruct (parked s !! res) as [[id body m g | id | id] |] eqn:E.
    + unfold step, bind, get. rewrite E. apply turn_ok_same.
    + destruct (step_Settled_resumes s res id settled (or_introl E))
        as (Hret & (new & Hnew & _ & _ & _ & Hallowed & _) & _ & Hactive & Hdebug).
      unfold turn_ok. repeat split; auto.
      * intros D. rewrite Hactive, D. destruct settled; reflexivity.
      * exists new. auto.
    + destruct (step_Settled_resumes s res id settled (or_intror E))
        as (Hret & (new & Hnew & _ & _ & _ & Hallowed & _) & _ & Hactive & Hdebug).
      unfold turn_ok. repeat split; auto.
      * intros D. rewrite Hactive, D. destruct settled; reflexivity.
      * exists new. auto.
    + rewrite (step_Settled_idle s res settled E). apply turn_ok_same.
Qed.

Lemma run_ok (inputs : list input) (s : state) : turn_ok s (run inputs s).
Proof.
  revert s. induction inputs as [| i inputs IH]; intros s.
  - apply turn_ok_same.
  - rewrite run_cons. destruct (step_ok s i) as (Hret & Hdebug & Hactive & new & Hnew & Hall).
    destruct (step i s) as [o t]. simpl in Hret, Hdebug, Hactive, Hnew. subst o.
    destruct (IH t) as (Hret' & Hdebug' & Hactive' & new' & Hnew' & Hall').
    unfold turn_ok. split; [exact Hret' |]. split; [congruence |]. split.
    + intros D. rewrite Hactive' by congruence. apply Hactive. exact D.
    + exists (new ++ new'). rewrite Hnew', Hnew, <- app_assoc. split; [reflexivity |].
      rewrite forallb_app, Hall, Hall'. reflexivity.
Qed.

(** *** A request from its arrival to its answer *)

Lemma refused_answered (s : state) (res : conn) (line tail : string) (code : Z)
    (id : idval) (settled : string + transcriptData) :
  code <> 200 ->
  answered_with id settled res
    ([SetHeader res "Content-Type" "application/json"; ConsoleLog line]
     ++ error_effects (S (clock_reads s)) ("id " +:+ id_toString id +:+ tail) code res).
Proof.
  intros Hcode. unfold answered_with, error_effects, statusCode. simpl.
  rewrite !Nat.eqb_refl. eexists. split; [reflexivity |].
  right. split; [exact Hcode |]. eexists. reflexivity.
Qed.

Lemma trace_refused (s : state) (res : conn) (line message : string) (code : Z) :
  drop (length (trace s)) (trace (refused s res line message code)) =
  [SetHeader res "Content-Type" "application/json"; ConsoleLog line]
  ++ error_effects (S (clock_reads s)) message code res.
Proof. unfold refused. simpl trace. apply drop_app_length. Qed.

(** After the handler has run up to its [await], the engine's settling
    answers the request, if the handler has not answered it already. *)
Lemma settle_after_handler (s t : state) (res : conn) (id : idval)
    (settled : string + transcriptData) (line : string)
    (requestedGrammar : qvalue) (call : option Grammar -> effect) (awaiting : continuation) :
  awaiting = AwaitTranscriptFromFile id \/ awaiting = AwaitTranscriptFromBuffer id ->
  (forall grammar, is_engine_call (call grammar) = true) ->
  parked s !! res = None ->
  trace t =
    (trace s ++ [SetHeader res "Content-Type" "application/json"; ConsoleLog line])
    ++ started_effects (with_clock_reads (S (clock_reads s)) s)
    ++ match grammar_of requestedGrammar with
       | inr grammar => [call grammar]
       | inl error =>
           error_effects (clock_after_started (with_clock_reads (S (clock_reads s)) s))
             (transcript_failed id error) 415 res
       end ->
  parked t =
    match grammar_of requestedGrammar with
    | inr _ => <[res := awaiting]> (delete res (parked s))
    | inl _ => delete res (parked s)
    end ->
  fst (run [Settled res settled] t) = Returned tt /\
  answered_with id settled res
    (drop (length (trace s)) (trace (snd (run [Settled res settled] t)))).
Proof.
  intros Hawait Hcall Hfresh Htrace Hparked.
  change (run [Settled res settled] t)
    with (bind (step (Settled res settled)) (fun _ => ret tt) t).
  rewrite bind_ret_tt.
  destruct (grammar_of requestedGrammar) as [error | grammar].
  - rewrite step_Settled_idle.
    + split; [reflexivity |]. simpl snd. rewrite Htrace.
      rewrite <- app_assoc, drop_app_length.
      unfold answered_with.
      rewrite !bodies_app, statusCode_app, statusCode_from_app, bodies_started,
        statusCode_from_started.
      destruct (error_effects_observed res
                  (statusCode res [SetHeader res "Content-Type" "application/json";
                                   ConsoleLog line])
                  (clock_after_started (with_clock_reads (S (clock_reads s)) s))
                  (transcript_failed id error) 415) as (H1 & H2 & _).
      rewrite H1, H2. eexists. split; [reflexivity |].
      right. split; [discriminate |]. eexists. reflexivity.
    + rewrite Hparked. apply lookup_delete_eq.
  - destruct (step_Settled_resumes t res id settled) as (Hret & (new & Hnew & Hb & Hs & _) & _).
    { rewrite Hparked, lookup_insert_eq. destruct Hawait as [-> | ->]; auto. }
    split; [exact Hret |].
    rewrite Hnew, Htrace. rewrite <- !app_assoc, drop_app_length.
    unfold answered_with.
    rewrite !bodies_app, !statusCode_app, !statusCode_from_app, bodies_started,
      statusCode_from_started, Hb, Hs.
    assert (bodies res [call grammar] = []) as ->.
    { specialize (Hcall grammar). destruct (call grammar); simpl in *; congruence. }
    assert (forall c, statusCode_from res c [call grammar] = c) as ->.
    { intros c. specialize (Hcall grammar). destruct (call grammar); simpl in *; congruence. }
    simpl. eexists. split; [reflexivity |].
    unfold response_body, transcript_failed. destruct settled as [error | data].
    + right. split; [discriminate |]. eexists. reflexivity.
    + left. split; [reflexivity |]. eexists. split; reflexivity.
Qed.

(** *** The error text *)

Lemma append_String (a : ascii) (s t : string) : String a s +:+ t = String a (s +:+ t).
Proof. reflexivity. Qed.

Lemma append_assoc (a b c : string) : (a +:+ b) +:+ c = a +:+ (b +:+ c).
Proof.
  induction a as [| x a IH]; [reflexivity |]. rewrite !append_String, IH. reflexivity.
Qed.

(** The recogniser on the text errorResponse builds: all that is left to
    decide is whether the message, as it stands, is the inside of a JSON
    string. *)
Lemma is_json_error_object_error_body (message : string) :
  is_json_error_object (error_body message) =
  match after_json_string (message +:+ dq +:+ "}") with
  | Some t =>
      match after_prefix "}" (skip_whitespace t) with
      | Some t' => String.eqb (skip_whitespace t') ""
      | None => false
      end
  | None => false
  end.
Proof. reflexivity. Qed.

(** Whatever stands before it, the quote in front of the word speech ends
    the JSON string, if the string has not ended or failed before. *)
Lemma after_json_string_tail (n : nat) :
  forall x r : string,
    (String.length x <= n)%nat ->
    after_json_string (x +:+ " " +:+ dq +:+ speech_tail) = Some r ->
    exists p, r = p +:+ speech_tail.
Proof.
  induction n as [n IH] using lt_wf_ind. intros x r Hlen H.
  destruct x as [| c x].
  - vm_compute in H. injection H as <-. exists "". reflexivity.
  - rewrite append_String in H. simpl after_json_string in H.
    destruct (Ascii.eqb c "034").
    { injection H as <-. exists (x +:+ " " +:+ dq). rewrite !append_assoc. reflexivity. }
    simpl in Hlen.
    destruct (Ascii.eqb c "092").
    + destruct x as [| e x].
      { vm_compute in H. discriminate. }
      rewrite append_String in H. simpl in Hlen.
      destruct (is_simple_escape e).
      { apply (IH (String.length x)) with (x := x); [lia | lia | exact H]. }
      destruct (Ascii.eqb e "u"); [| discriminate].
      destruct x as [| h1 x]; [vm_compute in H; discriminate |].
      destruct x as [| h2 x].
      { unfold String.append in H. simpl in H. rewrite andb_false_r in H. discriminate. }
      destruct x as [| h3 x].
      { unfold String.append in H. simpl in H. rewrite andb_false_r in H. discriminate. }
      destruct x as [| h4 x].
      { unfold String.append in H. simpl in H. rewrite andb_false_r in H. discriminate. }
      rewrite !append_String in H. simpl in Hlen.
      destruct (is_hex h1 && is_hex h2 && is_hex h3 && is_hex h4); [| discriminate].
      apply (IH (String.length x)) with (x := x); [lia | lia | exact H].
    + destruct (nat_of_ascii c <? 32)%nat; [discriminate |].
      apply (IH (String.length x)) with (x := x); [lia | lia | exact H].
Qed.

Lemma skip_whitespace_tail (p : string) :
  exists p', skip_whitespace (p +:+ speech_tail) = p' +:+ speech_tail.
Proof.
  induction p as [| c p IH].
  - exists "". reflexivity.
  - rewrite append_String. simpl skip_whitespace.
    destruct (is_whitespace c); [exact IH |].
    exists (String c p). reflexivity.
Qed.

Lemma after_brace_tail (p t : string) :
  after_prefix "}" (p +:+ speech_tail) = Some t -> exists p', t = p' +:+ speech_tail.
Proof.
  destruct p as [| c p].
  - vm_compute. discriminate.
  - rewrite append_String.
    change (after_prefix "}" (String c (p +:+ speech_tail)))
      with (if Ascii.eqb "}" c then Some (p +:+ speech_tail) else None).
    destruct (Ascii.eqb "}" c); [| discriminate].
    intros E. injection E as <-. exists p. reflexivity.
Qed.

Lemma tail_not_empty (p : string) : String.eqb (p +:+ speech_tail) "" = false.
Proof. destruct p; reflexivity. Qed.

(** The text of line 232 is never a JSON error object, whatever the id. *)
Lemma speech_not_found_not_json (id : idval) :
  is_json_error_object (error_body (speech_not_found id)) = false.
Proof.
  rewrite is_json_error_object_error_body. unfold speech_not_found.
  assert (("id " +:+ id_toString id +:+ " " +:+ dq +:+ "speech" +:+ dq
           +:+ " attribute not found in the body request") +:+ dq +:+ "}"
          = "id " +:+ (id_toString id +:+ " " +:+ dq +:+ speech_tail)) as ->.
  { rewrite !append_assoc. reflexivity. }
  change (after_json_string ("id " +:+ (id_toString id +:+ " " +:+ dq +:+ speech_tail)))
    with (after_json_string (id_toString id +:+ " " +:+ dq +:+ speech_tail)).
  destruct (after_json_string (id_toString id +:+ " " +:+ dq +:+ speech_tail))
    as [r |] eqn:Hr; [| reflexivity].
  destruct (after_json_string_tail _ (id_toString id) r (le_n _) Hr) as [p ->].
  destruct (skip_whitespace_tail p) as [p' ->].
  destruct (after_prefix "}" (p' +:+ speech_tail)) as [t |] eqn:Ht; [| reflexivity].
  destruct (after_brace_tail p' t Ht) as [p'' ->].
  destruct (skip_whitespace_tail p'') as [q ->].
  apply tail_not_empty.
Qed.

(** *** The counter over any number of requests *)

Lemma awaiting_insert_new (p : gmap conn continuation) (res : conn) (k : continuation) :
  p !! res = None -> is_awaiting k = true -> awaiting (<[res := k]> p) = S (awaiting p).
Proof.
  intros Hnone Hk. unfold awaiting.
  rewrite map_filter_insert_True by exact Hk.
  apply map_size_insert_None. apply map_lookup_filter_None. left. exact Hnone.
Qed.

Lemma awaiting_insert_body (p : gmap conn continuation) (res : conn) (k : continuation) :
  is_awaiting k = false ->
  (forall k0, p !! res = Some k0 -> is_awaiting k0 = false) ->
  awaiting (<[res := k]> p) = awaiting p.
Proof.
  intros Hk Hold. unfold awaiting. f_equal.
  apply map_filter_insert_not'.
  - simpl. congruence.
  - intros k0 E. simpl. rewrite (Hold k0 E). discriminate.
Qed.

Lemma awaiting_delete_body (p : gmap conn continuation) (res : conn) :
  (forall k0, p !! res = Some k0 -> is_awaiting k0 = false) ->
  awaiting (delete res p) = awaiting p.
Proof.
  intros Hold. unfold awaiting. f_equal.
  apply map_filter_delete_not. intros k0 E. simpl. rewrite (Hold k0 E). discriminate.
Qed.

Lemma awaiting_delete_await (p : gmap conn continuation) (res : conn) (k : continuation) :
  p !! res = Some k -> is_awaiting k = true -> awaiting p = S (awaiting (delete res p)).
Proof.
  intros E Hk. rewrite <- (insert_delete_id p res k E) at 1.
  apply awaiting_insert_new; [apply lookup_delete_eq | exact Hk].
Qed.

Lemma failures_app (tr tr' : list effect) :
  failures (tr ++ tr') = (failures tr + failures tr')%nat.
Proof. unfold failures. rewrite List.filter_app. apply length_app. Qed.

Lemma failures_started (t : state) : failures (started_effects t) = 0%nat.
Proof. unfold started_effects. destruct (debug t); reflexivity. Qed.

Lemma balance_handler (t t1 : state) (r : outcome unit * state) (res : conn)
    (call : option Grammar -> effect) (new0 : list effect) (id : idval) (k : continuation)
    (g : string + option Grammar) :
  debug t = true ->
  (forall grammar, is_415 (call grammar) = false) ->
  failures new0 = 0%nat ->
  is_awaiting k = true ->
  debug t1 = debug t -> activeRequests t1 = activeRequests t ->
  trace t1 = trace t ++ new0 ->
  parked t1 !! res = None ->
  awaiting (parked t1) = awaiting (parked t) ->
  trace (snd r) =
    trace t1 ++ started_effects t1 ++
    match g with
    | inr grammar => [call grammar]
    | inl error => error_effects (clock_after_started t1) (transcript_failed id error) 415 res
    end ->
  parked (snd r) =
    match g with
    | inr _ => <[res := k]> (parked t1)
    | inl _ => parked t1
    end ->
  activeRequests (snd r) = (if debug t1 then activeRequests t1 + 1 else activeRequests t1) ->
  balance (snd r) = balance t.
Proof.
  intros D Hcall Hnew0 Hk Hd Ha Ht Hfresh Haw Htrace Hparked Hactive.
  unfold balance. rewrite Hactive, Htrace, Hparked, Hd, D, Ha, Ht.
  rewrite !failures_app, Hnew0, failures_started.
  destruct g as [error | grammar].
  - rewrite Haw. unfold error_effects, failures. simpl. lia.
  - rewrite (awaiting_insert_new _ _ _ Hfresh Hk), Haw.
    unfold failures at 2. simpl. rewrite Hcall. simpl. lia.
Qed.

Lemma step_balance (t : state) (i : input) :
  debug t = true ->
  (forall res req, i = Request res req -> parked t !! res = None) ->
  balance (snd (step i t)) = balance t /\
  dom (parked (snd (step i t))) ⊆ request_conn i ∪ dom (parked t).
Proof.
  intros D Hfresh.
  destruct i as [res req | res chunk | res | res settled].
  - specialize (Hfresh res req eq_refl).
    change (step (Request res req) t) with (requestListener req res t).
    destruct (url_matches (url req)) eqn:Hpath.
    2:{ rewrite (requestListener_other_path t res req Hpath).
        unfold balance, rejected. simpl. rewrite failures_app. unfold failures at 2. simpl.
        split; [lia | set_unfold; intuition congruence]. }
    destruct (String.eqb (method req) "GET") eqn:Hget.
    + apply String.eqb_eq in Hget.
      destruct (truthy (property (url_parse_query (url req)) "speech")) eqn:Hspeech.
      2:{ rewrite (requestListener_get_no_speech t res req Hpath Hget Hspeech).
          unfold balance, refused. simpl. rewrite failures_app. unfold failures at 2. simpl.
          split; [lia | set_unfold; intuition congruence]. }
      destruct (model_mismatch (property (url_parse_query (url req)) "model")
                  (modelName t)) eqn:Hmis.
      { rewrite (requestListener_get_mismatch t res req Hpath Hget Hspeech Hmis).
        unfold balance, refused. simpl. rewrite failures_app. unfold failures at 2. simpl.
        split; [lia | set_unfold; intuition congruence]. }
      rewrite (requestListener_get t res req Hpath Hget Hspeech Hmis).
      destruct (responseTranscriptGet_effects (get_checked t res req) (request_id t req)
                  (property (url_parse_query (url req)) "speech")
                  (property (url_parse_query (url req)) "model")
                  (property (url_parse_query (url req)) "grammar") res)
        as (Hret & Htrace & Hparked & Hactive & Hdebug).
      split.
      * eapply (balance_handler t (get_checked t res req) _ res
                  (TranscriptFromFile (property (url_parse_query (url req)) "speech")
                     (model (get_checked t res req)))
                  _ _ (AwaitTranscriptFromFile (request_id t req)));
          try eassumption; try reflexivity.
        reflexivity.
      * rewrite Hparked. simpl parked.
        destruct (grammar_of _); [set_unfold; intuition congruence |]. rewrite dom_insert_L. set_unfold; intuition congruence.
    + destruct (String.eqb (method req) "POST") eqn:Hpost.
      2:{ rewrite (requestListener_other_method t res req Hpath Hget Hpost).
          unfold balance, rejected. simpl. rewrite failures_app. unfold failures at 2. simpl.
          split; [lia | set_unfold; intuition congruence]. }
      apply String.eqb_eq in Hpost.
      destruct (model_mismatch (property (url_parse_query (url req)) "model")
                  (modelName t)) eqn:Hmis.
      { rewrite (requestListener_post_mismatch t res req Hpath Hpost Hmis).
        unfold balance, refused. simpl. rewrite failures_app. unfold failures at 2. simpl.
        split; [lia | set_unfold; intuition congruence]. }
      rewrite (requestListener_post t res req Hpath Hpost Hmis).
      unfold balance, post_parked. simpl. rewrite failures_app. unfold failures at 2. simpl.
      rewrite awaiting_insert_body; [| reflexivity | intros k0 E; congruence].
      split; [lia |]. rewrite dom_insert_L. set_unfold; intuition congruence.
  - unfold step, bind, get.
    destruct (parked t !! res) as [[id body m g | id | id] |] eqn:E;
      try (split; [reflexivity | set_unfold; intuition congruence]).
    unfold park, bind, get, set_parked, balance. simpl.
    rewrite awaiting_insert_body; [| reflexivity | intros k0 E'; rewrite E in E'; injection E' as E'; subst k0; reflexivity].
    split; [lia |]. rewrite dom_insert_L. apply elem_of_dom_2 in E. set_unfold; intuition congruence.
  - unfold step, unpark, bind, get, set_parked. cbv beta iota.
    destruct (parked t !! res) as [[id body m g | id | id] |] eqn:E;
      try (split; [reflexivity | set_unfold; intuition congruence]).
    simpl.
    destruct (responseTranscriptPost_effects (with_parked (delete res (parked t)) t) id
                (Buffer_concat body) m g res)
      as (Hret & Htrace & Hparked & Hactive & Hdebug).
    split.
    + eapply (balance_handler t (with_parked (delete res (parked t)) t) _ res
                (TranscriptFromBuffer (Buffer_concat body)
                   (model (with_parked (delete res (parked t)) t)))
                [] _ (AwaitTranscriptFromBuffer id));
        try eassumption; try reflexivity.
      * simpl. rewrite app_nil_r. reflexivity.
      * simpl. apply lookup_delete_eq.
      * simpl. apply awaiting_delete_body. intros k0 E'. rewrite E in E'.
        injection E' as E'. subst k0. reflexivity.
    + rewrite Hparked. simpl parked. apply elem_of_dom_2 in E.
      destruct (grammar_of g); rewrite ?dom_insert_L, ?dom_delete_L; set_unfold; intuition congruence.
  - destruct (parked t !! res) as [[id body m g | id | id] |] eqn:E.
    + unfold step, bind, get. rewrite E. split; [reflexivity | set_unfold; intuition congruence].
    + destruct (step_Settled_resumes t res id settled (or_introl E))
        as (_ & (new & Hnew & _ & _ & _ & _ & Hfail) & Hparked & Hactive & _).
      split.
      * unfold balance. rewrite Hactive, Hparked, Hnew, failures_app, Hfail, D.
        rewrite (awaiting_delete_await (parked t) res _ E eq_refl).
        destruct settled; lia.
      * rewrite Hparked, dom_delete_L. set_unfold; intuition congruence.
    + destruct (step_Settled_resumes t res id settled (or_intror E))
        as (_ & (new & Hnew & _ & _ & _ & _ & Hfail) & Hparked & Hactive & _).
      split.
      * unfold balance. rewrite Hactive, Hparked, Hnew, failures_app, Hfail, D.
        rewrite (awaiting_delete_await (parked t) res _ E eq_refl).
        destruct settled; lia.
      * rewrite Hparked, dom_delete_L. set_unfold; intuition congruence.
    + rewrite (step_Settled_idle t res settled E). split; [reflexivity | set_unfold; intuition congruence].
Qed.
Lemma fresh_requests_eq (seen seen' : gset conn) (inputs : list input) :
  seen = seen' -> fresh_requests seen inputs -> fresh_requests seen' inputs.
Proof. intros ->. auto. Qed.

Lemma run_balance (inputs : list input) :
  forall (s : state) (seen : gset conn),
    debug s = true ->
    dom (parked s) ⊆ seen ->
    fresh_requests seen inputs ->
    balance (snd (run inputs s)) = balance s.
Proof.
  induction inputs as [| i inputs IH]; intros s seen D Hdom Hfresh; [reflexivity |].
  rewrite run_cons.
  destruct (step_ok s i) as (Hret & Hdebug & _).
  destruct (step_balance s i D) as (Hbal & Hdom').
  { intros res req ->. simpl in Hfresh. destruct Hfresh as [Hnew _].
    apply not_elem_of_dom. intros Hin. apply Hnew, Hdom, Hin. }
  destruct (step i s) as [o t]. simpl in Hret, Hdebug, Hbal, Hdom'. subst o.
  rewrite (IH t (request_conn i ∪ seen)).
  - exact Hbal.
  - congruence.
  - set_unfold. intros x Hx. destruct (Hdom' x Hx) as [H | H]; auto.
  - destruct i as [res req | res chunk | res | res settled]; simpl in *.
    + apply Hfresh.
    + apply (fresh_requests_eq seen); [| exact Hfresh]. symmetry. apply union_empty_l_L.
    + apply (fresh_requests_eq seen); [| exact Hfresh]. symmetry. apply union_empty_l_L.
    + apply (fresh_requests_eq seen); [| exact Hfresh]. symmetry. apply union_empty_l_L.
Qed.

(** *** One turn, seen from its connection *)

(** Case analysis on every test a stretch of code makes. *)
Ltac cases :=
  repeat match goal with
         | |- context [match ?x with _ => _ end] =>
             match x with
             | context [match _ with _ => _ end] => fail 1
             | _ => destruct x eqn:?; simpl
             end
         end.

(** A turn reads the globals of lines 19-20 and never writes them. *)
Lemma step_globals (t : state) (i : input) :
  model (snd (step i t)) = model t /\ modelName (snd (step i t)) = modelName t.
Proof.
  destruct i as [res req | res chunk | res | res settled]; exec; cases; auto.
Qed.

(** Effects that end [res] only leave the other response objects unanswered. *)
Lemma bodies_other (res res' : conn) (new : list effect) :
  res' <> res ->
  Forall (fun e => match e with
                   | ResEnd r _ => r = res
                   | _ => True
                   end) new ->
  bodies res' new = [].
Proof.
  intros Hne H. induction H as [| e new He _ IH]; [reflexivity |].
  destruct e; simpl; try exact IH.
  subst. destruct (Nat.eqb res' res) eqn:E; [| exact IH].
  apply Nat.eqb_eq in E. contradiction.
Qed.

(** Closes the premises of a constructor of [turn]. *)
Ltac turn_done :=
  unfold grammar_of, Buffer_concat;
  repeat match goal with
         | H : truthy _ = _ |- _ => rewrite H
         | H : JSON_parse _ = _ |- _ => rewrite H
         end;
  simpl; rewrite ?Nat.eqb_refl; try reflexivity; try discriminate; eauto.

(** Every turn returns; it calls the engine with the loaded model only; it
    leaves the other connections alone; and what it does to its own
    connection is one of the cases of [turn]. *)
Lemma step_turn (t : state) (i : input) :
  exists new,
    fst (step i t) = Returned tt /\
    trace (snd (step i t)) = trace t ++ new /\
    Forall (calls_with (model t)) new /\
    (forall res', res' <> input_conn i ->
       parked (snd (step i t)) !! res' = parked t !! res' /\ bodies res' new = []) /\
    turn i (parked t !! input_conn i) (parked (snd (step i t)) !! input_conn i) new.
Proof.
  destruct i as [res req | res chunk | res | res settled]; exec; cases;
    try match goal with
        | H : parked _ !! _ = _ |- _ => rewrite H
        end;
    (eexists; split; [reflexivity |];
     split; [rewrite <- ?app_assoc; simpl; try reflexivity;
             try (symmetry; apply app_nil_r) |];
     split; [repeat constructor |];
     split;
     [ intros res' Hne;
       rewrite ?lookup_insert_ne, ?lookup_delete_ne by (intros ->; apply Hne; reflexivity);
       (split; [reflexivity |]);
       apply (bodies_other res); [exact Hne | repeat constructor]
     | rewrite ?lookup_insert_eq, ?lookup_delete_eq;
       first
         [ eapply turn_refused; turn_done; fail
         | eapply turn_get; turn_done; fail
         | eapply turn_post; turn_done; fail
         | eapply turn_data; turn_done; fail
         | eapply turn_end_failed; turn_done; fail
         | eapply turn_end_called; turn_done; fail
         | eapply turn_settled; turn_done; fail
         | eapply turn_idle; turn_done; fail ] ]).
Qed.

Lemma run_keeps_globals (inputs : list input) (s : state) :
  model (snd (run inputs s)) = model s /\
  modelName (snd (run inputs s)) = modelName s /\
  exists new,
    trace (snd (run inputs s)) = trace s ++ new /\ Forall (calls_with (model s)) new.
Proof.
  revert s. induction inputs as [| i inputs IH]; intros s.
  - simpl. repeat split. exists []. rewrite app_nil_r. auto.
  - rewrite run_cons.
    destruct (step_globals s i) as (Hm & Hn).
    destruct (step_turn s i) as (new & Hret & Htrace & Hcalls & _).
    destruct (step i s) as [o t]. simpl in Hm, Hn, Hret, Htrace. subst o.
    destruct (IH t) as (Hm' & Hn' & new' & Htrace' & Hcalls').
    split; [congruence |]. split; [congruence |].
    exists (new ++ new'). rewrite Htrace', Htrace, <- app_assoc. split; [reflexivity |].
    apply Forall_app. split; [exact Hcalls |]. rewrite <- Hm. exact Hcalls'.
Qed.

(** What a turn means for the answers of its connection. *)
Lemma turn_answer (i : input) (before after : option continuation) (new : list effect) :
  turn i before after new ->
  (new = [] /\ after = before /\ request_conn i = ∅) \/
  ((is_Some before \/ request_conn i = {[input_conn i]}) /\
   ((is_Some after /\ bodies (input_conn i) new = []) \/
    (after = None /\ length (bodies (input_conn i) new) = 1%nat) \/
    (after = before /\ request_conn i = {[input_conn i]} /\
     length (bodies (input_conn i) new) = 1%nat))).
Proof.
  intros H. destruct H; simpl.
  - left. repeat split. destruct i; try reflexivity. exfalso. eapply H. reflexivity.
  - right. split; [right; reflexivity |]. right. right. rewrite H. auto.
  - right. split; [right; reflexivity |]. left. eauto.
  - right. split; [right; reflexivity |]. left. eauto.
  - right. split; [left; eauto |]. left. eauto.
  - right. split; [left; eauto |]. right. left. rewrite H. auto.
  - right. split; [left; eauto |]. left. eauto.
  - right. split; [left; eauto |]. right. left. rewrite H0. auto.
Qed.

Lemma request_conn_singleton (i : input) :
  request_conn i = {[input_conn i]} -> exists req, i = Request (input_conn i) req.
Proof.
  destruct i as [res req | res chunk | res | res settled]; simpl; intros H;
    [eauto | | |];
    exfalso; apply (not_elem_of_empty (C := gset conn) res); rewrite H;
    apply elem_of_singleton; reflexivity.
Qed.

Lemma request_conn_other (i : input) (res : conn) :
  res <> input_conn i -> res ∉ request_conn i.
Proof.
  intros Hne. destruct i; simpl in *;
    [rewrite elem_of_singleton; exact Hne | | |]; apply not_elem_of_empty.
Qed.

(** *** One answer for each request *)

Lemma step_answers (base : list effect) (seen asked : gset conn) (t : state) (i : input) :
  answers base seen asked t ->
  (forall res req, i = Request res req -> res ∉ seen) ->
  answers base (request_conn i ∪ seen) (request_conn i ∪ asked) (snd (step i t)).
Proof.
  intros (new0 & Ht & Hdom & Hunseen & Hparked & Hmost & Hasked) Hfresh.
  destruct (step_turn t i) as (new & _ & Htrace & _ & Hother & Hturn).
  apply turn_answer in Hturn.
  set (r := input_conn i) in *.
  set (t' := snd (step i t)) in *.
  assert (Hb : forall res, res <> r -> bodies res (new0 ++ new) = bodies res new0).
  { intros res Hne. rewrite bodies_app. destruct (Hother res Hne) as [_ ->]. apply app_nil_r. }
  assert (Hd : forall res, res <> r -> res ∈ dom (parked t') <-> res ∈ dom (parked t)).
  { intros res Hne. rewrite !elem_of_dom. destruct (Hother res Hne) as [-> _]. reflexivity. }
  assert (Hreq : forall res, res <> r -> res ∉ request_conn i).
  { intros res Hne. apply request_conn_other, Hne. }
  exists (new0 ++ new). split; [rewrite Htrace, Ht, app_assoc; reflexivity |].
  destruct Hturn as [(-> & Hafter & Hreq0) | (Hin & Hcase)].
  - assert (Hd' : forall res, res ∈ dom (parked t') <-> res ∈ dom (parked t)).
    { intros res. destruct (decide (res = r)) as [-> | Hne]; [| apply Hd; exact Hne].
      rewrite !elem_of_dom, Hafter. reflexivity. }
    rewrite app_nil_r, Hreq0, !union_empty_l_L.
    repeat split; auto.
    + intros res Hres. apply Hdom, Hd', Hres.
    + intros res Hres. apply Hparked, Hd', Hres.
    + intros res Hres Hnot. apply Hasked; [exact Hres |]. rewrite <- Hd'. exact Hnot.
  - assert (R0 : bodies r new0 = []).
    { destruct Hin as [Hsome | Hrq].
      - apply Hparked, elem_of_dom, Hsome.
      - apply Hunseen. destruct (request_conn_singleton i Hrq) as [req Hi].
        apply (Hfresh _ req Hi). }
    assert (Hseen : r ∈ request_conn i ∪ seen).
    { destruct Hin as [Hsome | Hrq].
      - apply elem_of_union_r, Hdom, elem_of_dom, Hsome.
      - rewrite Hrq. apply elem_of_union_l, elem_of_singleton. reflexivity. }
    assert (Hcase' : (r ∈ dom (parked t') /\ bodies r new = []) \/
                     ((r ∉ dom (parked t')) /\ length (bodies r new) = 1%nat)).
    { destruct Hcase as [[Hsome Hnone] | [[Hnone Hone] | (Hsame & Hrq & Hone)]].
      - left. split; [apply elem_of_dom, Hsome | exact Hnone].
      - right. split; [apply not_elem_of_dom, Hnone | exact Hone].
      - right. split; [| exact Hone].
        rewrite not_elem_of_dom, Hsame. apply not_elem_of_dom.
        intros Hin'. destruct (request_conn_singleton i Hrq) as [req Hi].
        apply (Hfresh _ req Hi), Hdom, Hin'. }
    clear Hcase.
    split; [| split; [| split; [| split]]].
    + intros res Hres. destruct (decide (res = r)) as [-> | Hne]; [exact Hseen |].
      apply elem_of_union_r, Hdom, Hd; assumption.
    + intros res Hres. destruct (decide (res = r)) as [-> | Hne]; [contradiction |].
      rewrite Hb by exact Hne. apply Hunseen.
      intros Hin'. apply Hres, elem_of_union_r, Hin'.
    + intros res Hres. destruct (decide (res = r)) as [-> | Hne].
      * rewrite bodies_app, R0. destruct Hcase' as [[_ ->] | [Hnot _]]; [reflexivity | contradiction].
      * rewrite Hb by exact Hne. apply Hparked, Hd; assumption.
    + intros res. destruct (decide (res = r)) as [-> | Hne].
      * rewrite bodies_app, R0. simpl. destruct Hcase' as [[_ ->] | [_ ->]]; simpl; lia.
      * rewrite Hb by exact Hne. apply Hmost.
    + intros res Hres Hnot. destruct (decide (res = r)) as [-> | Hne].
      * rewrite bodies_app, R0. simpl. destruct Hcase' as [[Hin' _] | [_ ->]]; [contradiction | reflexivity].
      * rewrite Hb by exact Hne. apply Hasked.
        -- apply elem_of_union in Hres as [Hres | Hres]; [| exact Hres].
           exfalso. exact (Hreq res Hne Hres).
        -- rewrite <- Hd by exact Hne. exact Hnot.
Qed.

Lemma run_answers (inputs : list input) :
  forall (base : list effect) (seen asked : gset conn) (s : state),
    answers base seen asked s ->
    fresh_requests seen inputs ->
    answers base (requested inputs ∪ seen) (requested inputs ∪ asked) (snd (run inputs s)).
Proof.
  induction inputs as [| i inputs IH]; intros base seen asked s Hs Hfresh.
  - simpl. rewrite !union_empty_l_L. exact Hs.
  - rewrite run_cons.
    pose proof (step_answers base seen asked s i Hs) as Ht.
    destruct (step_turn s i) as (new & Hret & _).
    destruct (step i s) as [o t]. simpl in Hret, Ht. subst o.
    simpl requested.
    replace (request_conn i ∪ requested inputs ∪ seen)
      with (requested inputs ∪ (request_conn i ∪ seen))
      by (apply set_eq; intros x; rewrite !elem_of_union; tauto).
    replace (request_conn i ∪ requested inputs ∪ asked)
      with (requested inputs ∪ (request_conn i ∪ asked))
      by (apply set_eq; intros x; rewrite !elem_of_union; tauto).
    apply IH.
    + apply Ht. intros res req ->. simpl in Hfresh. apply Hfresh.
    + destruct i as [res req | res chunk | res | res settled]; simpl in *.
      * apply Hfresh.
      * apply (fresh_requests_eq seen); [| exact Hfresh]. symmetry. apply union_empty_l_L.
      * apply (fresh_requests_eq seen); [| exact Hfresh]. symmetry. apply union_empty_l_L.
      * apply (fresh_requests_eq seen); [| exact Hfresh]. symmetry. apply union_empty_l_L.
Qed.

Lemma requested_In (res : conn) (req : request) (inputs : list input) :
  In (Request res req) inputs -> res ∈ requested inputs.
Proof.
  induction inputs as [| i inputs IH]; simpl; [tauto |].
  intros [-> | H]; [apply elem_of_union_l, elem_of_singleton; reflexivity |].
  apply elem_of_union_r, IH, H.
Qed.

Lemma answers_start (s : state) : answers (trace s) (dom (parked s)) ∅ s.
Proof.
  exists []. rewrite app_nil_r. repeat split; auto.
  intros res H. exfalso. exact (not_elem_of_empty res H).
Qed.

(** *** Bodies side by side *)

(** Where nobody listens for the body, its chunks and its end do nothing. *)
Lemma run_body_events_idle (res : conn) (events : list input) (t : state) :
  forallb (body_event res) events = true ->
  (forall id body mn g, parked t !! res <> Some (BodyListeners id body mn g)) ->
  run events t = (Returned tt, t).
Proof.
  intros Hev Hno. induction events as [| i events IH]; [reflexivity |].
  simpl in Hev. apply andb_true_iff in Hev as [Hi Hev].
  rewrite (run_cons_returned i events t t); [apply IH, Hev |].
  destruct i as [r req | r chunk | r | r settled]; simpl in Hi; try discriminate;
    apply Nat.eqb_eq in Hi; subst r; unfold step, bind, get, ret;
    destruct (parked t !! res) as [[id body m g | id | id] |] eqn:E; try reflexivity;
    exfalso; exact (Hno _ _ _ _ eq_refl).
Qed.

(** The body listeners of [res] see its own chunks and nothing else. *)
Lemma run_among_others (res : conn) (mid : list input) :
  forall (t : state) (id : idval) (body : list (list byte)) (mn g : qvalue),
    parked t !! res = Some (BodyListeners id body mn g) ->
    forallb (chunk_or_other res) mid = true ->
    fst (run mid t) = Returned tt /\
    parked (snd (run mid t)) !! res
    = Some (BodyListeners id (body ++ chunks_for res mid) mn g).
Proof.
  induction mid as [| i mid IH]; intros t id body mn g E Hmid.
  - simpl. rewrite app_nil_r. auto.
  - simpl in Hmid. apply andb_true_iff in Hmid as [Hi Hmid].
    rewrite run_cons.
    destruct (step_turn t i) as (new & Hret & _ & _ & Hother & _).
    destruct (decide (res = input_conn i)) as [Heq | Hne].
    + destruct i as [r req | r chunk | r | r settled]; simpl in Heq; subst r;
        simpl in Hi; rewrite ?Nat.eqb_refl in Hi; try discriminate.
      assert (step (Data res chunk) t =
              (Returned tt,
               with_parked (<[res := BodyListeners id (body ++ [chunk]) mn g]> (parked t)) t))
        as ->.
      { unfold step, bind, get. rewrite E. reflexivity. }
      simpl chunks_for. rewrite Nat.eqb_refl.
      destruct (IH (with_parked (<[res := BodyListeners id (body ++ [chunk]) mn g]> (parked t)) t)
                  id (body ++ [chunk]) mn g) as (H1 & H2);
        [simpl; apply lookup_insert_eq | exact Hmid |].
      split; [exact H1 |]. rewrite H2, <- app_assoc. reflexivity.
    + destruct (Hother res Hne) as [Hp _].
      destruct (step i t) as [o t']. simpl in Hret, Hp. subst o.
      rewrite E in Hp.
      destruct (IH t' id body mn g Hp Hmid) as (H1 & H2).
      split; [exact H1 |]. rewrite H2.
      destruct i as [r req | r chunk | r | r settled]; simpl in *; try reflexivity.
      destruct (Nat.eqb r res) eqn:Er; [| reflexivity].
      apply Nat.eqb_eq in Er. congruence.
Qed.

(** *** Counting the engine calls *)

Lemma receiving_insert_new (p : gmap conn continuation) (res : conn) (k : continuation) :
  p !! res = None -> receiving (<[res := k]> p) = (receiving p + receives (Some k))%nat.
Proof.
  intros Hnone. unfold receiving, receives. destruct (is_receiving k) eqn:Hk.
  - rewrite map_filter_insert_True by exact Hk.
    rewrite map_size_insert_None; [lia |].
    apply map_lookup_filter_None. left. exact Hnone.
  - rewrite map_filter_insert_not'; [lia | simpl; congruence |].
    intros y E. congruence.
Qed.

Lemma receiving_delete (p : gmap conn continuation) (res : conn) :
  receiving p = (receiving (delete res p) + receives (p !! res))%nat.
Proof.
  destruct (p !! res) as [k |] eqn:E.
  - rewrite <- (insert_delete_id p res k E) at 1.
    apply receiving_insert_new, lookup_delete_eq.
  - rewrite delete_id by exact E. simpl. lia.
Qed.

(** A turn changes [receiving] by what its own connection counts for. *)
Lemma receiving_turn (p p' : gmap conn continuation) (res : conn) :
  (forall res', res' <> res -> p' !! res' = p !! res') ->
  (receiving p' + receives (p !! res) = receiving p + receives (p' !! res))%nat.
Proof.
  intros Hother.
  assert (delete res p' = delete res p) as Hd.
  { apply map_eq. intros j. destruct (decide (res = j)) as [<- | Hne].
    - rewrite !lookup_delete_eq. reflexivity.
    - rewrite !lookup_delete_ne by exact Hne. apply Hother. congruence. }
  rewrite (receiving_delete p res), (receiving_delete p' res), Hd. lia.
Qed.

(** A turn calls the engine at most once, and only for a request that arrives
    or for a body that ends. *)
Lemma turn_call (i : input) (before after : option continuation) (new : list effect) :
  turn i before after new ->
  (length (engine_calls new) + receives after
   <= receives before + (if is_Request i then 1 else 0))%nat.
Proof.
  intros H. destruct H; simpl;
    repeat match goal with
           | H : engine_calls _ = _ |- _ => rewrite H
           end; simpl; try lia.
Qed.

Lemma run_calls (inputs : list input) (s : state) :
  exists new,
    trace (snd (run inputs s)) = trace s ++ new /\
    (length (engine_calls new) + receiving (parked (snd (run inputs s)))
     <= length (List.filter is_Request inputs) + receiving (parked s))%nat.
Proof.
  revert s. induction inputs as [| i inputs IH]; intros s.
  - exists []. simpl. rewrite app_nil_r. split; [reflexivity | lia].
  - rewrite run_cons.
    destruct (step_turn s i) as (new & Hret & Htrace & _ & Hother & Hturn).
    apply turn_call in Hturn.
    pose proof (receiving_turn (parked s) (parked (snd (step i s))) (input_conn i)
                  (fun res' Hne => proj1 (Hother res' Hne))) as Hrec.
    destruct (step i s) as [o t]. simpl in Hret, Htrace, Hturn, Hrec. subst o.
    destruct (IH t) as (new' & Htrace' & Hle).
    exists (new ++ new'). rewrite Htrace', Htrace, <- app_assoc. split; [reflexivity |].
    rewrite engine_calls_app, length_app. simpl List.filter.
    destruct (is_Request i); simpl length; lia.
Qed.

(** *** Plain messages and stamped lines *)

(** A plain message is the inside of a JSON string as it stands. *)
Lemma after_json_string_plain (message rest : string) :
  plain message = true -> after_json_string (message +:+ dq +:+ rest) = Some rest.
Proof.
  induction message as [| c message IH]; intros H.
  - reflexivity.
  - simpl in H. apply andb_true_iff in H as [Hc H].
    unfold plain_char in Hc.
    apply andb_true_iff in Hc as [Hc H3]. apply andb_true_iff in Hc as [H1 H2].
    apply negb_true_iff in H1, H2, H3.
    rewrite append_String. simpl after_json_string. rewrite H1, H2, H3. apply IH, H.
Qed.

Lemma prefix_stamp (a text : string) : String.prefix (a +:+ " ") (a +:+ " " +:+ text) = true.
Proof.
  induction a as [| c a IH]; [destruct text; reflexivity |].
  rewrite !append_String. simpl. destruct (ascii_dec c c); [exact IH | contradiction].
Qed.

Lemma stamped_app (n : nat) (tr tr' : list effect) :
  stamped n (tr ++ tr') =
  match stamped n tr with
  | Some k => stamped k tr'
  | None => None
  end.
Proof.
  revert n. induction tr as [| e tr IH]; intros n; [reflexivity |].
  destruct e; simpl; try apply IH.
  destruct (String.prefix _ line); [apply IH | reflexivity].
Qed.

(** log reads the clock once for each line, or is handed the reading the
    listener has just made. *)
Lemma step_stamped (t : state) (i : input) :
  exists new,
    trace (snd (step i t)) = trace t ++ new /\
    stamped (clock_reads t) new = Some (clock_reads (snd (step i t))).
Proof.
  destruct i as [res req | res chunk | res | res settled]; exec; cases;
    (eexists; split;
     [rewrite <- ?app_assoc; simpl; try reflexivity; try (symmetry; apply app_nil_r) |
      simpl; rewrite ?prefix_stamp; reflexivity]).
Qed.

Lemma run_stamped (inputs : list input) (s : state) :
  exists new,
    trace (snd (run inputs s)) = trace s ++ new /\
    stamped (clock_reads s) new = Some (clock_reads (snd (run inputs s))).
Proof.
  revert s. induction inputs as [| i inputs IH]; intros s.
  - exists []. simpl. rewrite app_nil_r. auto.
  - rewrite run_cons.
    destruct (step_stamped s i) as (new & Htrace & Hst).
    destruct (step_turn s i) as (_ & Hret & _).
    destruct (step i s) as [o t]. simpl in Hret, Htrace, Hst. subst o.
    destruct (IH t) as (new' & Htrace' & Hst').
    exists (new ++ new'). rewrite Htrace', Htrace, <- app_assoc. split; [reflexivity |].
    rewrite stamped_app, Hst. exact Hst'.
Qed.

(** *** The lines logged without debug *)

(** Without debug a turn logs the request line of a request to the
    endpoint, and one line with each answer. *)
Lemma step_lines (t : state) (i : input) :
  debug t = false ->
  exists new,
    trace (snd (step i t)) = trace t ++ new /\
    length (List.filter is_ConsoleLog new)
    = (length (List.filter is_ResEnd new) + (if is_transcript_request i then 1 else 0))%nat.
Proof.
  intros D.
  destruct i as [res req | res chunk | res | res settled]; simpl is_transcript_request;
    [destruct (url_matches (url req)) eqn:Hpath;
     destruct (String.eqb (method req) "GET") eqn:Hget;
     destruct (String.eqb (method req) "POST") eqn:Hpost | | |];
    exec; rewrite ?Hpath, ?Hget, ?Hpost, ?D; simpl; cases; rewrite ?D in *; try discriminate;
    (eexists; split;
     [rewrite <- ?app_assoc; simpl; try reflexivity; try (symmetry; apply app_nil_r) |
      reflexivity]).
Qed.

Lemma run_lines (inputs : list input) (s : state) :
  debug s = false ->
  exists new,
    trace (snd (run inputs s)) = trace s ++ new /\
    length (List.filter is_ConsoleLog new)
    = (length (List.filter is_ResEnd new)
       + length (List.filter is_transcript_request inputs))%nat.
Proof.
  revert s. induction inputs as [| i inputs IH]; intros s D.
  - exists []. simpl. rewrite app_nil_r. auto.
  - rewrite run_cons.
    destruct (step_lines s i D) as (new & Htrace & Hcount).
    destruct (step_ok s i) as (Hret & Hdebug & _).
    destruct (step i s) as [o t]. simpl in Hret, Hdebug, Htrace. subst o.
    destruct (IH t) as (new' & Htrace' & Hcount'); [congruence |].
    exists (new ++ new'). rewrite Htrace', Htrace, <- app_assoc. split; [reflexivity |].
    rewrite !List.filter_app, !length_app. simpl List.filter.
    destruct (is_transcript_request i); simpl length; lia.
Qed.

(** *** Start and end of the process *)


Lemma filter_calls (p : effect -> bool) (tr : list effect) :
  (forall line, p (ConsoleLog line) = false) ->
  List.filter p tr = List.filter p (calls tr).
Proof.
  intros Hp. induction tr as [| e tr IH]; [reflexivity |].
  destruct e; simpl; rewrite ?IH; try reflexivity. rewrite Hp. reflexivity.
Qed.



(** main with a model directory, up to its [await]. *)
Lemma main_started (s : state) (args : cli_args) (dir : string) :
  arg_model args = AString dir -> dir <> "" ->
  exists t new,
    main args s =
      (Returned (if arg_truthy (arg_port args) then arg_port args else HTTP_PORT), t) /\
    trace t = trace s ++ new /\
    calls new =
      match debug_settings (arg_debug args) with
      | Some (_, level) => [LogLevel level; LoadModel dir]
      | None => [LoadModel dir]
      end /\
    debug t = match debug_settings (arg_debug args) with
              | Some (d, _) => d
              | None => false
              end /\
    modelName t = path_basename dir /\
    model t = model s /\
    activeRequests t = activeRequests s /\
    parked t = parked s.
Proof.
  intros Hmodel Hdir. apply String.eqb_neq in Hdir.
  unfold main, validateArgs, helpAndExit, set_globals. exec.
  rewrite Hmodel. simpl. rewrite Hdir. simpl.
  destruct (arg_truthy (arg_port args)); simpl;
    (destruct (debug_settings (arg_debug args)) as [[d level] |]; simpl;
     eexists _, _; (split; [reflexivity |]); simpl;
     (split; [rewrite <- ?app_assoc; simpl; reflexivity |]); repeat split; reflexivity).
Qed.

Lemma model_mismatch_false (requested : qvalue) (name : string) :
  model_mismatch requested name = false <->
  truthy requested = false \/ requested = QString name.
Proof.
  unfold model_mismatch. split.
  - intros H. apply andb_false_iff in H as [H | H]; [left; exact H |].
    right. destruct requested as [| r | l]; simpl in H; try discriminate.
    apply negb_false_iff, String.eqb_eq in H. congruence.
  - intros [H | ->]; [rewrite H; reflexivity |].
    simpl. rewrite String.eqb_refl. apply andb_false_r.
Qed.




(** main after the [await], when the model has been loaded: the server
    listens and the handlers are registered, or [server.listen] throws and
    nothing else is done. *)
Lemma main_resumed_loaded (server_listen : argvalue -> option string) (t : state)
    (port : argvalue) (loaded : Model * Z) :
  let r := main_resumed server_listen port (inr loaded) t in
  model (snd r) = Some (fst loaded) /\
  exists new,
    trace (snd r) = trace t ++ new /\
    match server_listen port with
    | None =>
        fst r = Returned tt /\
        calls new = [Listen (arg_toString port); ProcessOn "SIGTERM"; ProcessOn "SIGINT";
                     ProcessOn "uncaughtException"]
    | Some error => fst r = Thrown error /\ calls new = []
    end.
Proof.
  cbv zeta. unfold main_resumed, set_model.
  destruct (server_listen port) as [error |]; exec;
    (split; [reflexivity |]); eexists; rewrite <- ?app_assoc;
    (split; [reflexivity |]); split; reflexivity.
Qed.

(** *** What a failure leaves behind *)

Lemma plain_app (a b : string) : plain (a +:+ b) = plain a && plain b.
Proof.
  induction a as [| c a IH]; [reflexivity |].
  rewrite append_String. simpl. rewrite IH. apply andb_assoc.
Qed.

(** The text of lines 191 and 232, written out. *)
Lemma error_body_speech_not_found (id : idval) :
  error_body (speech_not_found id)
  = "{" +:+ dq +:+ "error" +:+ dq +:+ ":" +:+ dq +:+ "id " +:+ id_toString id +:+ " "
    +:+ dq +:+ "speech" +:+ dq +:+ " attribute not found in the body request" +:+ dq +:+ "}".
Proof.
  unfold error_body, speech_not_found. rewrite !append_assoc. reflexivity.
Qed.

(** What the [catch] of a handler leaves on the trace, as read from [res]
    and from any other response object. *)
Lemma failure_observed (res res' : conn) (t : state) (n : nat) (message : string) :
  let new := started_effects t ++ error_effects n message 415 res in
  statusCode res new = 415 /\
  bodies res new = [error_body message] /\
  (res' <> res -> bodies res' new = []).
Proof.
  cbv zeta. rewrite statusCode_app, !bodies_app, !bodies_started.
  destruct (error_effects_observed res (statusCode res (started_effects t)) n message 415)
    as (H1 & H2 & _).
  split; [exact H1 |]. split; [exact H2 |].
  intros Hne. unfold error_effects. simpl.
  apply Nat.eqb_neq in Hne. rewrite Hne. reflexivity.
Qed.

(** *** The claims *)

(** C1: for a POST to the transcript endpoint that passes the model check,
    the 'end' of the body makes at most one engine call, and the buffer of
    that call is the concatenation of the chunks in the order they arrived;
    the call is made whenever the grammar parameter is absent, empty or
    parses, and no call is made when it does not parse. *)
Theorem post_buffer_is_concatenation (s : state) (res : conn) (req : request)
    (chunks : list (list byte)) :
  url_matches (url req) = true ->
  method req = "POST" ->
  model_mismatch (property (url_parse_query (url req)) "model") (modelName s) = false ->
  let inputs := Request res req :: map (Data res) chunks ++ [EndOfBody res] in
  fst (run inputs s) = Returned tt /\
  engine_calls (effects_of (run inputs) s) =
    match grammar_of (property (url_parse_query (url req)) "grammar") with
    | inr grammar => [TranscriptFromBuffer (concat chunks) (model s) grammar]
    | inl _ => []
    end.
Proof.
  intros Hpath Hmethod Hmis. cbv zeta. unfold effects_of.
  rewrite (run_post s res req chunks Hpath Hmethod Hmis).
  destruct (responseTranscriptPost_effects (post_ended s res req) (request_id s req)
              (concat chunks) (property (url_parse_query (url req)) "model")
              (property (url_parse_query (url req)) "grammar") res)
    as (Hret & Htrace & _).
  split; [exact Hret |].
  rewrite Htrace. simpl trace. rewrite <- app_assoc, drop_app_length.
  rewrite !engine_calls_app, engine_calls_started. simpl.
  destruct (grammar_of (property (url_parse_query (url req)) "grammar")); reflexivity.
Qed.

(** C2 (amended): on the transcript endpoint, a GET that carries a speech
    value or a POST, whose model parameter is given, not empty, and not the
    loaded model's name, is answered 404 and the engine is not invoked; a
    POST is answered before any listener is put on its body, so the chunks
    that arrive afterwards are accumulated nowhere and change nothing. *)
Theorem model_mismatch_is_404 (s : state) (res : conn) (req : request) :
  url_matches (url req) = true ->
  (method req = "GET" /\ truthy (property (url_parse_query (url req)) "speech") = true)
  \/ method req = "POST" ->
  truthy (property (url_parse_query (url req)) "model") = true ->
  property (url_parse_query (url req)) "model" <> QString (modelName s) ->
  let new := effects_of (requestListener req res) s in
  fst (requestListener req res s) = Returned tt /\
  statusCode res new = 404 /\
  engine_calls new = [] /\
  parked (snd (requestListener req res s)) = parked s /\
  (parked s !! res = None ->
   forall chunks : list (list byte),
     run (Request res req :: map (Data res) chunks ++ [EndOfBody res]) s
     = requestListener req res s).
Proof.
  intros Hpath Hmethod Htruthy Hne. cbv zeta.
  pose proof (model_mismatch_true _ _ Htruthy Hne) as Hmis.
  assert (fst (requestListener req res s) = Returned tt /\
          statusCode res (effects_of (requestListener req res) s) = 404 /\
          engine_calls (effects_of (requestListener req res) s) = [] /\
          parked (snd (requestListener req res s)) = parked s) as (H1 & H2 & H3 & H4).
  { destruct Hmethod as [[Hmethod Hspeech] | Hmethod].
    - exec. rewrite Hpath, Hmethod. simpl. rewrite Hspeech. simpl.
      rewrite Hmis. simpl. new_effects.
      unfold statusCode. simpl. rewrite Nat.eqb_refl. auto.
    - exec. rewrite Hpath, Hmethod. simpl.
      rewrite Hmis. simpl. new_effects.
      unfold statusCode. simpl. rewrite Nat.eqb_refl. auto. }
  repeat split; try assumption.
  intros Hfresh chunks. rewrite run_cons.
  change (step (Request res req) s) with (requestListener req res s).
  destruct (requestListener req res s) as [o t]. simpl in H1, H4. subst o.
  apply run_body_idle. rewrite H4. exact Hfresh.
Qed.

(** C3 (the code does not do what the claim says): a GET to the transcript
    endpoint whose query string has no speech parameter is answered 405 and
    the engine is not invoked, as the claim says; but the body, the text of
    line 191 around the message of line 232, holds no error field: it is not
    a JSON object with the member error.  When the id is plain, the JSON
    string that opens after the colon ends at the quote in front of the word
    speech, and what follows it is that word, not the end of the object. *)
Theorem speechless_get_has_no_error_field (s : state) (res : conn) (req : request) :
  url_matches (url req) = true ->
  method req = "GET" ->
  url_parse_query (url req) !! "speech" = None ->
  let new := effects_of (requestListener req res) s in
  let id := id_toString (request_id s req) in
  let rest := "speech" +:+ dq +:+ " attribute not found in the body request" +:+ dq +:+ "}" in
  let body := "{" +:+ dq +:+ "error" +:+ dq +:+ ":" +:+ dq +:+ "id " +:+ id +:+ " "
              +:+ dq +:+ rest in
  fst (requestListener req res s) = Returned tt /\
  statusCode res new = 405 /\
  engine_calls new = [] /\
  parked (snd (requestListener req res s)) = parked s /\
  bodies res new = [body] /\
  is_json_error_object body = false /\
  (plain id = true -> after_json_string ("id " +:+ id +:+ " " +:+ dq +:+ rest) = Some rest).
Proof.
  intros Hpath Hmethod Hspeech. cbv zeta.
  pose proof (property_missing _ _ Hspeech) as Hfalsy.
  assert (truthy (property (url_parse_query (url req)) "speech") = false) as Ht
    by (rewrite Hfalsy; reflexivity).
  unfold effects_of.
  rewrite (requestListener_get_no_speech s res req Hpath Hmethod Ht).
  simpl snd. simpl fst. rewrite trace_refused.
  rewrite <- (error_body_speech_not_found (request_id s req)).
  split; [reflexivity |].
  split; [unfold statusCode; simpl; rewrite Nat.eqb_refl; reflexivity |].
  split; [reflexivity |].
  split; [reflexivity |].
  split; [simpl; rewrite Nat.eqb_refl; reflexivity |].
  split; [apply speech_not_found_not_json |].
  intros Hplain.
  rewrite <- (after_json_string_plain ("id " +:+ id_toString (request_id s req) +:+ " ")
                ("speech" +:+ dq +:+ " attribute not found in the body request" +:+ dq +:+ "}")).
  - rewrite !append_assoc. reflexivity.
  - change ("id " +:+ id_toString (request_id s req) +:+ " ")
      with ("id " +:+ (id_toString (request_id s req) +:+ " ")).
    rewrite !plain_app, Hplain. reflexivity.
Qed.

(** C4 (the code does not do what the claim says): with debug on, a GET
    that reaches the engine is over once the engine has settled, and the
    counter of active requests is back at its value only when the
    transcription succeeded; when it failed the request is answered 415 and
    the counter stays one above: the catch clause does not decrement it. *)
Theorem failed_request_leaves_counter_up (s : state) (res : conn) (req : request)
    (grammar : option Grammar) (settled : string + transcriptData) :
  debug s = true ->
  url_matches (url req) = true ->
  method req = "GET" ->
  truthy (property (url_parse_query (url req)) "speech") = true ->
  model_mismatch (property (url_parse_query (url req)) "model") (modelName s) = false ->
  grammar_of (property (url_parse_query (url req)) "grammar") = inr grammar ->
  parked s !! res = None ->
  let inputs := [Request res req; Settled res settled] in
  fst (run inputs s) = Returned tt /\
  parked (snd (run inputs s)) = parked s /\
  bodies res (effects_of (run inputs) s) = [response_body (request_id s req) settled] /\
  activeRequests (snd (run inputs s)) =
    match settled with
    | inr _ => activeRequests s
    | inl _ => activeRequests s + 1
    end.
Proof.
  intros Hdebug Hpath Hmethod Hspeech Hmis Hgrammar Hfresh. cbv zeta.
  unfold effects_of.
  rewrite run_cons. change (step (Request res req) s) with (requestListener req res s).
  rewrite (requestListener_get s res req Hpath Hmethod Hspeech Hmis).
  destruct (responseTranscriptGet_effects (get_checked s res req) (request_id s req)
              (property (url_parse_query (url req)) "speech")
              (property (url_parse_query (url req)) "model")
              (property (url_parse_query (url req)) "grammar") res)
    as (Hret & Htrace & Hparked & Hactive & Hd).
  destruct (responseTranscriptGet _ _ _ _ _ _) as [o t].
  simpl in Hret, Htrace, Hparked, Hactive, Hd. subst o.
  rewrite Hgrammar in Htrace, Hparked. rewrite Hdebug in Hactive, Hd.
  change (run [Settled res settled] t)
    with (bind (step (Settled res settled)) (fun _ => ret tt) t).
  rewrite bind_ret_tt.
  destruct (step_Settled_resumes t res (request_id s req) settled)
    as (Hret' & (new & Hnew & Hb & _) & Hparked' & Hactive' & _).
  { left. rewrite Hparked. apply lookup_insert_eq. }
  repeat split.
  - exact Hret'.
  - rewrite Hparked', Hparked, delete_insert_eq. apply delete_id. exact Hfresh.
  - rewrite Hnew, Htrace. rewrite <- !app_assoc, drop_app_length.
    rewrite !bodies_app, bodies_started, Hb. reflexivity.
  - rewrite Hactive', Hd, Hactive. destruct settled; lia.
Qed.

(** C5 (amended): on the transcript endpoint, for a GET that carries a
    speech value and for a POST whose body has ended, with a model parameter
    that passes the check: a grammar parameter that is not empty and that
    JSON.parse rejects is answered 415, the engine is not called, and no
    exception leaves the handler.  The answer is made by the handler's catch
    clause, the one that answers when the engine's promise rejects: the same
    three effects around the same message. *)
Theorem bad_grammar_is_415 (s : state) (res : conn) (req : request) (error : string) :
  url_matches (url req) = true ->
  model_mismatch (property (url_parse_query (url req)) "model") (modelName s) = false ->
  truthy (property (url_parse_query (url req)) "grammar") = true ->
  JSON_parse (qvalue_toString (property (url_parse_query (url req)) "grammar")) = inl error ->
  let failed := transcript_failed (request_id s req) error in
  (method req = "GET" ->
   truthy (property (url_parse_query (url req)) "speech") = true ->
   let new := effects_of (requestListener req res) s in
   fst (requestListener req res s) = Returned tt /\
   statusCode res new = 415 /\
   bodies res new = [error_body failed] /\
   engine_calls new = [] /\
   exists before n, new = before ++ error_effects n failed 415 res) /\
  (method req = "POST" ->
   forall chunks : list (list byte),
   let inputs := Request res req :: map (Data res) chunks ++ [EndOfBody res] in
   let new := effects_of (run inputs) s in
   fst (run inputs s) = Returned tt /\
   statusCode res new = 415 /\
   bodies res new = [error_body failed] /\
   engine_calls new = [] /\
   exists before n, new = before ++ error_effects n failed 415 res) /\
  (forall (t : state) (id : idval) (rejection : string),
   parked t !! res = Some (AwaitTranscriptFromFile id) \/
   parked t !! res = Some (AwaitTranscriptFromBuffer id) ->
   fst (step (Settled res (inl rejection)) t) = Returned tt /\
   effects_of (step (Settled res (inl rejection))) t =
     error_effects (clock_reads t) (transcript_failed id rejection) 415 res).
Proof.
  intros Hpath Hmis Htruthy Hparse. cbv zeta.
  pose proof (grammar_of_invalid _ _ Htruthy Hparse) as Hg.
  split; [| split].
  - intros Hmethod Hspeech. unfold effects_of.
    rewrite (requestListener_get s res req Hpath Hmethod Hspeech Hmis).
    destruct (responseTranscriptGet_effects (get_checked s res req) (request_id s req)
                (property (url_parse_query (url req)) "speech")
                (property (url_parse_query (url req)) "model")
                (property (url_parse_query (url req)) "grammar") res)
      as (Hret & Htrace & _).
    split; [exact Hret |].
    rewrite Htrace, Hg. simpl trace. rewrite <- app_assoc, drop_app_length.
    rewrite !engine_calls_app, !bodies_app, statusCode_app, statusCode_from_app,
      engine_calls_started, bodies_started, statusCode_from_started.
    destruct (error_effects_observed res
                (statusCode res [SetHeader res "Content-Type" "application/json";
                                 ConsoleLog (get_request_line s req)])
                (clock_after_started (get_checked s res req))
                (transcript_failed (request_id s req) error) 415) as (H1 & H2 & H3).
    rewrite H1, H2, H3. repeat split; try reflexivity.
    eexists _, _. rewrite app_assoc. reflexivity.
  - intros Hmethod chunks. unfold effects_of.
    rewrite (run_post s res req chunks Hpath Hmethod Hmis).
    destruct (responseTranscriptPost_effects (post_ended s res req) (request_id s req)
                (concat chunks) (property (url_parse_query (url req)) "model")
                (property (url_parse_query (url req)) "grammar") res)
      as (Hret & Htrace & _).
    split; [exact Hret |].
    rewrite Htrace, Hg. simpl trace. rewrite <- app_assoc, drop_app_length.
    rewrite !engine_calls_app, !bodies_app, statusCode_app, statusCode_from_app,
      engine_calls_started, bodies_started, statusCode_from_started.
    destruct (error_effects_observed res
                (statusCode res [SetHeader res "Content-Type" "application/json";
                                 ConsoleLog (post_request_line s req)])
                (clock_after_started (post_ended s res req))
                (transcript_failed (request_id s req) error) 415) as (H1 & H2 & H3).
    rewrite H1, H2, H3. repeat split; try reflexivity.
    eexists _, _. rewrite app_assoc. reflexivity.
  - intros t id rejection [E | E]; unfold effects_of; exec; rewrite E; simpl;
      rewrite <- ?app_assoc; rewrite drop_app_length; auto.
Qed.

(** C6 (amended): for a GET or a POST to the transcript endpoint, the
    request id is the id parameter, verbatim, when one is given and not
    empty, and the timestamp read at the start of the handling when none is
    given.  Whatever the engine does, the request gets one answer: an error
    text whose message starts with that id, or, with status 200, the
    serialisation of an object that holds id and latency and every property
    of the engine's result; id and latency are the request's id and the
    engine's latency unless the result has properties of these names.  A
    request the router rejects is answered without its query string being
    read: the body is the error text around the words path not allowed and
    the URL as it came, or around the words method not allowed and the
    method. *)
Theorem request_id_in_every_answer (s : state) (res : conn) (req : request)
    (chunks : list (list byte)) (settled : string + transcriptData) :
  parked s !! res = None ->
  let requestedId := property (url_parse_query (url req)) "id" in
  let id := request_id s req in
  (forall v : string, requestedId = QString v -> v <> "" ->
     id = IdQuery (QString v) /\ id_toString id = v) /\
  (requestedId = QUndefined -> id = IdTime (Date_now (clock_reads s))) /\
  (url_matches (url req) = true ->
   forall inputs : list input,
     (method req = "GET" /\ inputs = [Request res req; Settled res settled]) \/
     (method req = "POST" /\
      inputs = Request res req :: map (Data res) chunks
               ++ [EndOfBody res; Settled res settled]) ->
     fst (run inputs s) = Returned tt /\
     answered_with id settled res (effects_of (run inputs) s)) /\
  (forall data : transcriptData,
     is_Some (obj_get "id" (response_object id data)) /\
     is_Some (obj_get "latency" (response_object id data)) /\
     (~ In "id" (map fst (result data)) ->
      obj_get "id" (response_object id data) = Some (FId id)) /\
     (~ In "latency" (map fst (result data)) ->
      obj_get "latency" (response_object id data) = Some (FNumber (latency data))) /\
     (List.NoDup (map fst (result data)) ->
      forall (k : string) (p : Payload),
        In (k, p) (result data) ->
        obj_get k (response_object id data) = Some (FPayload p))) /\
  (url_matches (url req) = false ->
   bodies res (effects_of (requestListener req res) s)
   = [error_body ("path not allowed " +:+ url req)]) /\
  (url_matches (url req) = true -> method req <> "GET" -> method req <> "POST" ->
   bodies res (effects_of (requestListener req res) s)
   = [error_body ("method not allowed " +:+ method req)]).
Proof.
  intros Hfresh. cbv zeta. split; [| split; [| split; [| split; [| split]]]].
  - intros v Hv Hne. unfold request_id, id_or_time. rewrite Hv. simpl.
    apply String.eqb_neq in Hne. rewrite Hne. simpl. auto.
  - intros Hv. unfold request_id, id_or_time. rewrite Hv. reflexivity.
  - intros Hpath inputs [[Hmethod ->] | [Hmethod ->]]; unfold effects_of.
    + (* GET *)
      destruct (truthy (property (url_parse_query (url req)) "speech")) eqn:Hspeech;
        [destruct (model_mismatch (property (url_parse_query (url req)) "model")
                     (modelName s)) eqn:Hmis |].
      * rewrite (run_request_returned _ _ _ _ _
                   (requestListener_get_mismatch s res req Hpath Hmethod Hspeech Hmis)).
        rewrite run_settled_idle by exact Hfresh.
        split; [reflexivity |]. simpl snd. rewrite trace_refused.
        apply refused_answered. discriminate.
      * rewrite run_cons. change (step (Request res req) s) with (requestListener req res s).
        rewrite (requestListener_get s res req Hpath Hmethod Hspeech Hmis).
        destruct (responseTranscriptGet_effects (get_checked s res req) (request_id s req)
                    (property (url_parse_query (url req)) "speech")
                    (property (url_parse_query (url req)) "model")
                    (property (url_parse_query (url req)) "grammar") res)
          as (Hret & Htrace & Hparked & _).
        destruct (responseTranscriptGet _ _ _ _ _ _) as [o t]. simpl in Hret, Htrace, Hparked.
        subst o.
        apply (settle_after_handler s t res (request_id s req) settled
                 (get_request_line s req) (property (url_parse_query (url req)) "grammar")
                 (TranscriptFromFile (property (url_parse_query (url req)) "speech") (model s))
                 (AwaitTranscriptFromFile (request_id s req))); auto.
        rewrite Hparked. rewrite (delete_id (parked s) res Hfresh). reflexivity.
      * rewrite (run_request_returned _ _ _ _ _
                   (requestListener_get_no_speech s res req Hpath Hmethod Hspeech)).
        rewrite run_settled_idle by exact Hfresh.
        split; [reflexivity |]. simpl snd. rewrite trace_refused.
        apply refused_answered. discriminate.
    + (* POST *)
      destruct (model_mismatch (property (url_parse_query (url req)) "model")
                  (modelName s)) eqn:Hmis.
      * rewrite (run_request_returned _ _ _ _ _
                   (requestListener_post_mismatch s res req Hpath Hmethod Hmis)).
        change (map (Data res) chunks ++ [EndOfBody res; Settled res settled])
          with (map (Data res) chunks ++ [EndOfBody res] ++ [Settled res settled]).
        rewrite app_assoc, run_app. unfold bind.
        rewrite run_body_idle by exact Hfresh.
        rewrite run_settled_idle by exact Hfresh.
        split; [reflexivity |]. simpl snd. rewrite trace_refused.
        apply refused_answered. discriminate.
      * change (Request res req :: map (Data res) chunks
                ++ [EndOfBody res; Settled res settled])
          with ((Request res req :: map (Data res) chunks ++ [EndOfBody res] ++ [Settled res settled])).
        rewrite app_assoc, app_comm_cons, run_app. unfold bind.
        rewrite (run_post s res req chunks Hpath Hmethod Hmis).
        destruct (responseTranscriptPost_effects (post_ended s res req) (request_id s req)
                    (concat chunks) (property (url_parse_query (url req)) "model")
                    (property (url_parse_query (url req)) "grammar") res)
          as (Hret & Htrace & Hparked & _).
        destruct (responseTranscriptPost _ _ _ _ _ _) as [o t]. simpl in Hret, Htrace, Hparked.
        subst o.
        apply (settle_after_handler s t res (request_id s req) settled
                 (post_request_line s req) (property (url_parse_query (url req)) "grammar")
                 (TranscriptFromBuffer (concat chunks) (model s))
                 (AwaitTranscriptFromBuffer (request_id s req))); auto.
  - intros data. apply response_object_fields.
  - intros Hpath. unfold effects_of.
    rewrite (requestListener_other_path s res req Hpath).
    unfold rejected. simpl trace. rewrite drop_app_length.
    simpl. rewrite Nat.eqb_refl. reflexivity.
  - intros Hpath Hget Hpost. destruct (eqb_GET_POST (method req) Hget Hpost) as [E1 E2].
    unfold effects_of.
    rewrite (requestListener_other_method s res req Hpath E1 E2).
    unfold rejected. simpl trace. rewrite drop_app_length.
    simpl. rewrite Nat.eqb_refl. reflexivity.
Qed.

(** C7 (the code does not do what the claim says): a GET to the transcript
    endpoint without a speech value is answered with the header set first
    and with status 405, as the claim says, but the body is never a JSON
    object with a single string member, whatever the id: the double quotes
    around the word speech are copied into the text unescaped and end the
    string early. *)
Theorem speech_error_is_not_json (s : state) (res : conn) (req : request) :
  url_matches (url req) = true ->
  method req = "GET" ->
  truthy (property (url_parse_query (url req)) "speech") = false ->
  let new := effects_of (requestListener req res) s in
  head new = Some (SetHeader res "Content-Type" "application/json") /\
  statusCode res new = 405 /\
  exists body, bodies res new = [body] /\ is_json_error_object body = false.
Proof.
  intros Hpath Hmethod Hspeech. cbv zeta. unfold effects_of.
  rewrite (requestListener_get_no_speech s res req Hpath Hmethod Hspeech).
  simpl snd. rewrite trace_refused. unfold statusCode. simpl. rewrite !Nat.eqb_refl.
  repeat split. eexists. split; [reflexivity |].
  apply speech_not_found_not_json.
Qed.

(** C8: a request whose URL does not match the supported prefix is answered
    405 before the method is looked at (the answer is the same for every
    method, and neither the query string nor the engine is touched); a
    request to the transcript endpoint whose method is neither GET nor POST
    is answered 405. *)
Theorem other_path_or_method_is_405 (s : state) (res : conn) (req : request) :
  (url_matches (url req) = false ->
   fst (requestListener req res s) = Returned tt /\
   statusCode res (effects_of (requestListener req res) s) = 405 /\
   effects_of (requestListener req res) s =
     [SetHeader res "Content-Type" "application/json";
      SetStatusCode res 405;
      ResEnd res (error_body ("path not allowed " +:+ url req));
      ConsoleLog (number_toString (Date_now (clock_reads s)) +:+ " ERROR "
                  +:+ "path not allowed " +:+ url req)]) /\
  (url_matches (url req) = true -> method req <> "GET" -> method req <> "POST" ->
   fst (requestListener req res s) = Returned tt /\
   statusCode res (effects_of (requestListener req res) s) = 405 /\
   effects_of (requestListener req res) s =
     [SetHeader res "Content-Type" "application/json";
      SetStatusCode res 405;
      ResEnd res (error_body ("method not allowed " +:+ method req));
      ConsoleLog (number_toString (Date_now (clock_reads s)) +:+ " ERROR "
                  +:+ "method not allowed " +:+ method req)]).
Proof.
  split.
  - intros Hpath. exec. rewrite Hpath. simpl. new_effects.
    unfold statusCode. simpl. rewrite Nat.eqb_refl. auto.
  - intros Hpath Hget Hpost.
    destruct (eqb_GET_POST (method req) Hget Hpost) as [E1 E2].
    exec. rewrite Hpath, E1, E2. simpl. new_effects.
    unfold statusCode. simpl. rewrite Nat.eqb_refl. auto.
Qed.

(** C9: without a model directory among the arguments the process prints
    the usage and exits with code 1, before anything else is done; on
    SIGTERM, on SIGINT and on an uncaught exception the process releases the
    model exactly once and then exits with code 0. *)
Theorem exit_codes (s : state) :
  (forall args : cli_args,
     arg_truthy (arg_model args) = false ->
     fst (main args s) = Exited 1 /\
     effects_of (main args) s = [ConsoleUsage "voskjshttp"]) /\
  (forall ev : process_event,
     fst (process_on ev s) = Exited 0 /\
     List.filter is_FreeModel (effects_of (process_on ev) s) = [FreeModel (model s)] /\
     exists before,
       effects_of (process_on ev) s =
       before ++ [FreeModel (model s);
                  ConsoleLog (number_toString
                                (Date_now (clock_reads s + length before)%nat)
                              +:+ " " +:+ "Shutdown done")]).
Proof.
  split.
  - intros args Hmodel. unfold effects_of, main, validateArgs, helpAndExit.
    exec. rewrite Hmodel. simpl. rewrite drop_app_length. auto.
  - intros ev. unfold effects_of, process_on, shutdown.
    destruct ev; exec; rewrite <- ?app_assoc; rewrite drop_app_length; simpl;
      (split; [reflexivity |]); (split; [reflexivity |]).
    + eexists [_]. simpl. rewrite Nat.add_1_r. reflexivity.
    + eexists [_]. simpl. rewrite Nat.add_1_r. reflexivity.
    + eexists [_; _]. simpl. rewrite Nat.add_succ_r, Nat.add_1_r. reflexivity.
Qed.

(** C10 (amended): a POST to the transcript endpoint that passes the model
    check and whose body ends without a single chunk is never answered with
    the 405 of a missing audio source.  When the grammar parameter is
    absent, empty or parses, the engine is called with the empty buffer and
    nothing is answered until it settles; when the grammar does not parse,
    the request is answered 415 and the engine is not called. *)
Theorem post_without_chunks (s : state) (res : conn) (req : request) :
  url_matches (url req) = true ->
  method req = "POST" ->
  model_mismatch (property (url_parse_query (url req)) "model") (modelName s) = false ->
  let inputs := [Request res req; EndOfBody res] in
  let new := effects_of (run inputs) s in
  fst (run inputs s) = Returned tt /\
  match grammar_of (property (url_parse_query (url req)) "grammar") with
  | inr grammar =>
      engine_calls new = [TranscriptFromBuffer [] (model s) grammar] /\
      bodies res new = [] /\
      statusCode res new = 200
  | inl error =>
      engine_calls new = [] /\
      bodies res new = [error_body (transcript_failed (request_id s req) error)] /\
      statusCode res new = 415
  end.
Proof.
  intros Hpath Hmethod Hmis. cbv zeta. unfold effects_of.
  change [Request res req; EndOfBody res]
    with (Request res req :: map (Data res) [] ++ [EndOfBody res]).
  rewrite (run_post s res req [] Hpath Hmethod Hmis).
  destruct (responseTranscriptPost_effects (post_ended s res req) (request_id s req)
              (concat []) (property (url_parse_query (url req)) "model")
              (property (url_parse_query (url req)) "grammar") res)
    as (Hret & Htrace & _).
  split; [exact Hret |].
  rewrite Htrace. simpl trace. rewrite <- app_assoc, drop_app_length.
  rewrite !engine_calls_app, !bodies_app, statusCode_app, statusCode_from_app,
    engine_calls_started, bodies_started, statusCode_from_started.
  destruct (grammar_of (property (url_parse_query (url req)) "grammar")) as [error | grammar].
  - destruct (error_effects_observed res
                (statusCode res [SetHeader res "Content-Type" "application/json";
                                 ConsoleLog (post_request_line s req)])
                (clock_after_started (post_ended s res req))
                (transcript_failed (request_id s req) error) 415) as (H1 & H2 & H3).
    rewrite H1, H2, H3. auto.
  - simpl. auto.
Qed.

(** *** Beyond the claims *)

(** X1: no run of the event loop throws or ends the process, whatever
    requests, chunks and engine results arrive and in whatever order; and
    in the state any run leaves, what fails next is answered to the request
    it belongs to, with status 415 and the error text, and to nobody else:
    the engine's promise rejecting, JSON.parse throwing on the grammar of a
    POST whose body ends, and JSON.parse throwing on the grammar of a GET. *)
Theorem event_loop_never_throws (s : state) (inputs : list input) :
  fst (run inputs s) = Returned tt /\
  let t := snd (run inputs s) in
  (forall (res : conn) (id : idval) (rejection : string),
     parked t !! res = Some (AwaitTranscriptFromFile id) \/
     parked t !! res = Some (AwaitTranscriptFromBuffer id) ->
     let new := effects_of (step (Settled res (inl rejection))) t in
     fst (step (Settled res (inl rejection)) t) = Returned tt /\
     statusCode res new = 415 /\
     bodies res new = [error_body (transcript_failed id rejection)] /\
     forall res' : conn, res' <> res -> bodies res' new = []) /\
  (forall (res : conn) (id : idval) (body : list (list byte)) (mn g : qvalue)
          (error : string),
     parked t !! res = Some (BodyListeners id body mn g) ->
     grammar_of g = inl error ->
     let new := effects_of (step (EndOfBody res)) t in
     fst (step (EndOfBody res) t) = Returned tt /\
     statusCode res new = 415 /\
     bodies res new = [error_body (transcript_failed id error)] /\
     forall res' : conn, res' <> res -> bodies res' new = []) /\
  (forall (res : conn) (req : request) (error : string),
     url_matches (url req) = true ->
     method req = "GET" ->
     truthy (property (url_parse_query (url req)) "speech") = true ->
     model_mismatch (property (url_parse_query (url req)) "model") (modelName t) = false ->
     grammar_of (property (url_parse_query (url req)) "grammar") = inl error ->
     let new := effects_of (step (Request res req)) t in
     fst (step (Request res req) t) = Returned tt /\
     statusCode res new = 415 /\
     bodies res new = [error_body (transcript_failed (request_id t req) error)] /\
     forall res' : conn, res' <> res -> bodies res' new = []).
Proof.
  split; [apply run_ok |]. cbv zeta.
  generalize (snd (run inputs s)). intros t. split; [| split].
  - intros res id rejection E.
    destruct (step_Settled_resumes t res id (inl rejection) E)
      as (Hret & (new & Hnew & Hb & Hs & _) & _).
    destruct (step_turn t (Settled res (inl rejection))) as (new' & _ & Hnew' & _ & Hother & _).
    assert (new' = new) as -> by (eapply app_inv_head; rewrite <- Hnew; exact (eq_sym Hnew')).
    rewrite (effects_of_app _ _ _ Hnew).
    split; [exact Hret |]. split; [apply Hs |]. split; [exact Hb |].
    intros res' Hne. apply (Hother res' Hne).
  - intros res id body mn g error E Hg. unfold effects_of.
    assert (step (EndOfBody res) t
            = responseTranscriptPost id (Buffer_concat body) mn g res
                (with_parked (delete res (parked t)) t)) as ->.
    { unfold step, bind, get. rewrite E. reflexivity. }
    destruct (responseTranscriptPost_effects (with_parked (delete res (parked t)) t) id
                (Buffer_concat body) mn g res) as (Hret & Htrace & _).
    rewrite Hg in Htrace. split; [exact Hret |].
    rewrite Htrace. simpl trace. rewrite drop_app_length.
    destruct (failure_observed res res (with_parked (delete res (parked t)) t)
                (clock_after_started (with_parked (delete res (parked t)) t))
                (transcript_failed id error)) as (H1 & H2 & _).
    split; [exact H1 |]. split; [exact H2 |].
    intros res' Hne.
    apply (failure_observed res res' (with_parked (delete res (parked t)) t)
             (clock_after_started (with_parked (delete res (parked t)) t))
             (transcript_failed id error)), Hne.
  - intros res req error Hpath Hmethod Hspeech Hmis Hg. unfold effects_of.
    change (step (Request res req) t) with (requestListener req res t).
    rewrite (requestListener_get t res req Hpath Hmethod Hspeech Hmis).
    destruct (responseTranscriptGet_effects (get_checked t res req) (request_id t req)
                (property (url_parse_query (url req)) "speech")
                (property (url_parse_query (url req)) "model")
                (property (url_parse_query (url req)) "grammar") res) as (Hret & Htrace & _).
    rewrite Hg in Htrace. split; [exact Hret |].
    rewrite Htrace. simpl trace. rewrite <- app_assoc, drop_app_length.
    destruct (failure_observed res res (get_checked t res req)
                (clock_after_started (get_checked t res req))
                (transcript_failed (request_id t req) error)) as (H1 & H2 & _).
    pose proof (fun res' => failure_observed res res' (get_checked t res req)
                              (clock_after_started (get_checked t res req))
                              (transcript_failed (request_id t req) error)) as H3.
    cbv zeta in H1, H2, H3.
    set (new := started_effects (get_checked t res req)
                ++ error_effects (clock_after_started (get_checked t res req))
                     (transcript_failed (request_id t req) error) 415 res) in *.
    split; [| split].
    + rewrite statusCode_app. exact H1.
    + rewrite bodies_app. exact H2.
    + intros res' Hne. rewrite bodies_app. apply (H3 res'), Hne.
Qed.


(** X3: without debug the counter of active requests never moves. *)
Theorem counter_untouched_without_debug (s : state) (inputs : list input) :
  debug s = false ->
  activeRequests (snd (run inputs s)) = activeRequests s.
Proof. intros D. destruct (run_ok inputs s) as (_ & _ & H & _). exact (H D). Qed.

(** X4: whatever the request, the first thing done is to set the
    Content-Type of the response to application/json. *)
Theorem content_type_is_set_first (s : state) (res : conn) (req : request) :
  head (effects_of (requestListener req res) s)
  = Some (SetHeader res "Content-Type" "application/json").
Proof.
  assert (forall t : state,
            (exists rest, trace t = trace s
                          ++ SetHeader res "Content-Type" "application/json" :: rest) ->
            head (drop (length (trace s)) (trace t))
            = Some (SetHeader res "Content-Type" "application/json")) as Hhead.
  { intros t [rest ->]. rewrite drop_app_length. reflexivity. }
  unfold effects_of. apply Hhead.
  destruct (url_matches (url req)) eqn:Hpath.
  2:{ rewrite (requestListener_other_path s res req Hpath). eexists. reflexivity. }
  destruct (String.eqb (method req) "GET") eqn:Hget.
  - apply String.eqb_eq in Hget.
    destruct (truthy (property (url_parse_query (url req)) "speech")) eqn:Hspeech.
    2:{ rewrite (requestListener_get_no_speech s res req Hpath Hget Hspeech).
        eexists. reflexivity. }
    destruct (model_mismatch (property (url_parse_query (url req)) "model")
                (modelName s)) eqn:Hmis.
    { rewrite (requestListener_get_mismatch s res req Hpath Hget Hspeech Hmis).
      eexists. reflexivity. }
    rewrite (requestListener_get s res req Hpath Hget Hspeech Hmis).
    destruct (responseTranscriptGet_effects (get_checked s res req) (request_id s req)
                (property (url_parse_query (url req)) "speech")
                (property (url_parse_query (url req)) "model")
                (property (url_parse_query (url req)) "grammar") res)
      as (_ & Htrace & _).
    rewrite Htrace. simpl trace. rewrite <- app_assoc. eexists. reflexivity.
  - destruct (String.eqb (method req) "POST") eqn:Hpost.
    2:{ rewrite (requestListener_other_method s res req Hpath Hget Hpost).
        eexists. reflexivity. }
    apply String.eqb_eq in Hpost.
    destruct (model_mismatch (property (url_parse_query (url req)) "model")
                (modelName s)) eqn:Hmis.
    { rewrite (requestListener_post_mismatch s res req Hpath Hpost Hmis).
      eexists. reflexivity. }
    rewrite (requestListener_post s res req Hpath Hpost Hmis). eexists. reflexivity.
Qed.

(** X5: with debug on, over any requests, chunks and engine results in any
    order, as long as every request arrives on a response object of its
    own: the counter moves by the number of requests that have come to
    wait for the engine, plus the number of answers with status 415.  So
    when no request waits any more, the counter is not back at its value
    but above it by the number of requests that failed. *)
Theorem counter_counts_failures (s : state) (inputs : list input) :
  debug s = true ->
  fresh_requests (dom (parked s)) inputs ->
  activeRequests (snd (run inputs s))
  = activeRequests s
    + (Z.of_nat (awaiting (parked (snd (run inputs s)))) - Z.of_nat (awaiting (parked s)))
    + Z.of_nat (failures (effects_of (run inputs) s)).
Proof.
  intros D Hfresh.
  pose proof (run_balance inputs s (dom (parked s)) D (reflexivity _) Hfresh) as Hbal.
  destruct (run_ok inputs s) as (_ & _ & _ & new & Hnew & _).
  rewrite (effects_of_app _ _ _ Hnew).
  unfold balance in Hbal. rewrite Hnew, failures_app in Hbal. lia.
Qed.

(** X6: the handling of requests reads the globals model, modelName and
    debug and never assigns them: after any run they are what they were, and
    every call of the engine in the run was handed the model loaded at the
    start. *)
Theorem loaded_model_is_never_replaced (s : state) (inputs : list input) :
  model (snd (run inputs s)) = model s /\
  modelName (snd (run inputs s)) = modelName s /\
  debug (snd (run inputs s)) = debug s /\
  Forall (calls_with (model s)) (effects_of (run inputs) s).
Proof.
  destruct (run_keeps_globals inputs s) as (Hm & Hn & new & Hnew & Hcalls).
  destruct (run_ok inputs s) as (_ & Hd & _).
  rewrite (effects_of_app _ _ _ Hnew). auto.
Qed.

(** X7: when every request arrives on a response object of its own, no
    response is ended twice, whatever the requests, chunks and engine
    results, and in whatever order they come. *)
Theorem response_ended_at_most_once (s : state) (inputs : list input) (res : conn) :
  fresh_requests (dom (parked s)) inputs ->
  (length (bodies res (effects_of (run inputs) s)) <= 1)%nat.
Proof.
  intros Hfresh.
  destruct (run_answers inputs (trace s) (dom (parked s)) ∅ s (answers_start s) Hfresh)
    as (new & Hnew & _ & _ & _ & Hmost & _).
  rewrite (effects_of_app _ _ _ Hnew). apply Hmost.
Qed.

(** X8: when every request arrives on a response object of its own, a
    request that is still parked (its body is being received, or it waits
    for the engine) has not been answered, and a request that is not parked
    any more has been answered exactly once. *)
Theorem request_answered_exactly_once (s : state) (inputs : list input)
    (res : conn) (req : request) :
  fresh_requests (dom (parked s)) inputs ->
  In (Request res req) inputs ->
  match parked (snd (run inputs s)) !! res with
  | Some _ => bodies res (effects_of (run inputs) s) = []
  | None => length (bodies res (effects_of (run inputs) s)) = 1%nat
  end.
Proof.
  intros Hfresh Hin.
  destruct (run_answers inputs (trace s) (dom (parked s)) ∅ s (answers_start s) Hfresh)
    as (new & Hnew & _ & _ & Hparked & _ & Hasked).
  rewrite (effects_of_app _ _ _ Hnew).
  destruct (parked (snd (run inputs s)) !! res) eqn:E.
  - apply Hparked, elem_of_dom. rewrite E. eauto.
  - apply Hasked.
    + apply elem_of_union_l, (requested_In res req), Hin.
    + apply not_elem_of_dom, E.
Qed.

(** X9: a GET to the transcript endpoint registers no listener on its
    body: the chunks and the end of the body of a GET change nothing, the run
    goes on as if they had not come. *)
Theorem get_body_is_ignored (s : state) (res : conn) (req : request)
    (events rest : list input) :
  url_matches (url req) = true ->
  method req = "GET" ->
  parked s !! res = None ->
  forallb (body_event res) events = true ->
  run (Request res req :: events ++ rest) s = run (Request res req :: rest) s.
Proof.
  intros Hpath Hmethod Hfresh Hev.
  assert (exists t, requestListener req res s = (Returned tt, t) /\
                    forall id body mn g,
                      parked t !! res <> Some (BodyListeners id body mn g)) as (t & Ht & Hno).
  { destruct (truthy (property (url_parse_query (url req)) "speech")) eqn:Hspeech;
      [destruct (model_mismatch (property (url_parse_query (url req)) "model")
                   (modelName s)) eqn:Hmis |].
    - eexists. split; [apply (requestListener_get_mismatch s res req); assumption |].
      unfold refused. simpl. rewrite Hfresh. discriminate.
    - rewrite (requestListener_get s res req Hpath Hmethod Hspeech Hmis).
      destruct (responseTranscriptGet_effects (get_checked s res req) (request_id s req)
                  (property (url_parse_query (url req)) "speech")
                  (property (url_parse_query (url req)) "model")
                  (property (url_parse_query (url req)) "grammar") res)
        as (Hret & _ & Hparked & _).
      destruct (responseTranscriptGet _ _ _ _ _ _) as [o t]. simpl in Hret, Hparked. subst o.
      exists t. split; [reflexivity |]. intros id body mn g. rewrite Hparked.
      destruct (grammar_of _); simpl; [rewrite Hfresh | rewrite lookup_insert_eq]; discriminate.
    - eexists. split; [apply (requestListener_get_no_speech s res req); assumption |].
      unfold refused. simpl. rewrite Hfresh. discriminate. }
  rewrite !(run_request_returned res req _ s t Ht).
  rewrite run_app. unfold bind. rewrite (run_body_events_idle res events t Hev Hno).
  reflexivity.
Qed.

(** X10: the body of a POST is assembled from its own chunks only.  While
    other connections are served in between (their requests, chunks, ends
    and engine results), the 'end' of the body hands the engine the
    concatenation of the chunks of this connection, in their order, and the
    model loaded at the start. *)
Theorem post_body_among_other_connections (s : state) (res : conn) (req : request)
    (mid : list input) :
  url_matches (url req) = true ->
  method req = "POST" ->
  model_mismatch (property (url_parse_query (url req)) "model") (modelName s) = false ->
  forallb (chunk_or_other res) mid = true ->
  let t := snd (run (Request res req :: mid) s) in
  fst (run (Request res req :: mid ++ [EndOfBody res]) s) = Returned tt /\
  engine_calls (effects_of (step (EndOfBody res)) t) =
    match grammar_of (property (url_parse_query (url req)) "grammar") with
    | inr grammar => [TranscriptFromBuffer (concat (chunks_for res mid)) (model s) grammar]
    | inl _ => []
    end.
Proof.
  intros Hpath Hmethod Hmis Hmid. cbv zeta.
  split; [apply run_ok |].
  rewrite (run_request_returned res req mid s _ (requestListener_post s res req Hpath Hmethod Hmis)).
  destruct (run_among_others res mid (post_parked s res req) (request_id s req) []
              (property (url_parse_query (url req)) "model")
              (property (url_parse_query (url req)) "grammar")) as (_ & Hp);
    [apply lookup_insert_eq | exact Hmid |].
  destruct (run_keeps_globals mid (post_parked s res req)) as (Hm & _).
  destruct (run mid (post_parked s res req)) as [o t]. simpl in Hp, Hm. simpl snd.
  unfold effects_of, step. unfold bind at 1. unfold get at 1. rewrite Hp.
  unfold bind at 1. unfold unpark, bind, get, set_parked. simpl.
  destruct (responseTranscriptPost_effects (with_parked (delete res (parked t)) t)
              (request_id s req) (Buffer_concat (chunks_for res mid))
              (property (url_parse_query (url req)) "model")
              (property (url_parse_query (url req)) "grammar") res)
    as (_ & Htrace & _).
  rewrite Htrace. simpl trace. rewrite drop_app_length.
  rewrite engine_calls_app, engine_calls_started. simpl model. rewrite Hm.
  destruct (grammar_of (property (url_parse_query (url req)) "grammar")); reflexivity.
Qed.

(** X11: when the message holds no double quote, no backslash and no
    control character, the body errorResponse sends is a JSON object with the
    single member error. *)
Theorem plain_error_is_json (message : string) (code : Z) (res : conn) (t : state) :
  plain message = true ->
  bodies res (effects_of (errorResponse message code res) t) = [error_body message] /\
  is_json_error_object (error_body message) = true.
Proof.
  intros H. split.
  - destruct (errorResponse_effects message code res t) as [_ ->].
    apply error_effects_observed. exact 0.
  - rewrite is_json_error_object_error_body, (after_json_string_plain message "}" H).
    reflexivity.
Qed.

(** X12: with a model directory given, main hands on the port argument if
    there is one, else the environment variable PORT if it is set and not
    empty, else 3000, and does not call server.listen before the model is
    loaded.  Once it is loaded, server.listen is called with that value:
    when the call returns, it is the only one and the three process handlers
    are registered after it; when it throws, the exception leaves main and
    no handler is registered. *)
Theorem server_listens_on_chosen_port (server_listen : argvalue -> option string)
    (s : state) (args : cli_args) (dir : string) (loaded : Model * Z) :
  arg_model args = AString dir -> dir <> "" ->
  let port :=
    if arg_truthy (arg_port args) then arg_port args
    else AString match env_PORT with
                 | Some p => if String.eqb p "" then "3000" else p
                 | None => "3000"
                 end in
  let resumed := main_resumed server_listen port (inr loaded) in
  let t := snd (main args s) in
  fst (main args s) = Returned port /\
  List.filter is_Listen (effects_of (main args) s) = [] /\
  match server_listen port with
  | None =>
      fst (resumed t) = Returned tt /\
      calls (effects_of resumed t)
      = [Listen (arg_toString port); ProcessOn "SIGTERM"; ProcessOn "SIGINT";
         ProcessOn "uncaughtException"]
  | Some error =>
      fst (resumed t) = Thrown error /\ calls (effects_of resumed t) = []
  end.
Proof.
  intros Hmodel Hdir. cbv zeta.
  destruct (main_started s args dir Hmodel Hdir) as (t & new & Hmain & Htrace & Hcalls & _).
  assert (HTTP_PORT = AString match env_PORT with
                              | Some p => if String.eqb p "" then "3000" else p
                              | None => "3000"
                              end) as <-.
  { unfold HTTP_PORT. destruct env_PORT as [p |]; [destruct (String.eqb p "") |]; reflexivity. }
  unfold effects_of at 1. rewrite Hmain. simpl fst. simpl snd.
  split; [reflexivity |]. split.
  - rewrite Htrace, drop_app_length.
    rewrite (filter_calls is_Listen new (fun _ => eq_refl)), Hcalls.
    destruct (debug_settings (arg_debug args)) as [[d level] |]; reflexivity.
  - destruct (main_resumed_loaded server_listen t
                (if arg_truthy (arg_port args) then arg_port args else HTTP_PORT) loaded)
      as (_ & new' & Hnew' & H).
    rewrite (effects_of_app _ _ _ Hnew'). exact H.
Qed.

(** X13: what main makes of the debug argument.  Absent, false or empty:
    debug off, logLevel(-1).  Given without a value: debug on, logLevel(-1).
    An integer: debug on, logLevel of that integer.  Any other text: debug is
    left off and logLevel is not called at all. *)
Theorem debug_argument_settings (s : state) (args : cli_args) (dir : string) :
  arg_model args = AString dir -> dir <> "" ->
  let t := snd (main args s) in
  let levels := List.filter is_LogLevel (effects_of (main args) s) in
  match arg_debug args with
  | AUndefined | ABool false => debug t = false /\ levels = [LogLevel (-1)]
  | ABool true => debug t = true /\ levels = [LogLevel (-1)]
  | AString text =>
      if String.eqb text "" then debug t = false /\ levels = [LogLevel (-1)]
      else match Number_integer text with
           | Some level => debug t = true /\ levels = [LogLevel level]
           | None => debug t = false /\ levels = []
           end
  end.
Proof.
  intros Hmodel Hdir. cbv zeta.
  destruct (main_started s args dir Hmodel Hdir) as (t & new & Hmain & Htrace & Hcalls & Hd & _).
  unfold effects_of. rewrite Hmain. simpl snd. rewrite Htrace, drop_app_length.
  rewrite (filter_calls is_LogLevel new (fun _ => eq_refl)), Hcalls, Hd.
  unfold debug_settings.
  destruct (arg_debug args) as [| [|] | text]; simpl; auto.
  destruct (String.eqb text ""); simpl; auto.
  destruct (Number_integer text); simpl; auto.
Qed.

(** X14: main names the model by the last segment of its directory, and
    the model check of the listener passes exactly the requests whose model
    parameter is absent, empty, or that one name; a parameter given twice is
    an array and never passes. *)
Theorem model_is_named_by_its_directory (s : state) (args : cli_args) (dir : string)
    (requested : qvalue) :
  arg_model args = AString dir -> dir <> "" ->
  let t := snd (main args s) in
  modelName t = path_basename dir /\
  (model_mismatch requested (modelName t) = false <->
   truthy requested = false \/ requested = QString (path_basename dir)).
Proof.
  intros Hmodel Hdir. cbv zeta.
  destruct (main_started s args dir Hmodel Hdir) as (t & new & Hmain & _ & _ & _ & Hname & _).
  rewrite Hmain. simpl snd. rewrite Hname. split; [reflexivity |].
  apply model_mismatch_false.
Qed.


(** X16: a GET or a POST to the transcript endpoint is logged before it is
    checked: the effect after the header is the request line, stamped with
    the reading of the clock made for the request and carrying the method
    and the request id, whether the request is then answered, refused or
    parked.  When the id parameter is absent or empty, the id is that
    reading. *)
Theorem request_is_logged_with_its_id (s : state) (res : conn) (req : request) :
  url_matches (url req) = true ->
  method req = "GET" \/ method req = "POST" ->
  let id := request_id s req in
  let stamp := number_toString (Date_now (clock_reads s)) in
  (exists tail rest,
     effects_of (requestListener req res) s =
       SetHeader res "Content-Type" "application/json"
       :: ConsoleLog (stamp +:+ " request " +:+ method req +:+ " " +:+ id_toString id
                      +:+ " " +:+ tail)
       :: rest) /\
  (truthy (property (url_parse_query (url req)) "id") = false -> id_toString id = stamp).
Proof.
  intros Hpath Hmethod. cbv zeta. split.
  2:{ intros Hid. unfold request_id, id_or_time. rewrite Hid. reflexivity. }
  assert (forall (t : state) (line : string) (rest : list effect),
            trace t = trace s ++ SetHeader res "Content-Type" "application/json"
                                 :: ConsoleLog line :: rest ->
            drop (length (trace s)) (trace t)
            = SetHeader res "Content-Type" "application/json" :: ConsoleLog line :: rest)
    as Hdrop.
  { intros t line rest ->. apply drop_app_length. }
  unfold effects_of.
  destruct Hmethod as [Hmethod | Hmethod]; rewrite Hmethod.
  - destruct (truthy (property (url_parse_query (url req)) "speech")) eqn:Hspeech;
      [destruct (model_mismatch (property (url_parse_query (url req)) "model")
                   (modelName s)) eqn:Hmis |].
    + rewrite (requestListener_get_mismatch s res req Hpath Hmethod Hspeech Hmis).
      eexists _, _. apply Hdrop. reflexivity.
    + rewrite (requestListener_get s res req Hpath Hmethod Hspeech Hmis).
      destruct (responseTranscriptGet_effects (get_checked s res req) (request_id s req)
                  (property (url_parse_query (url req)) "speech")
                  (property (url_parse_query (url req)) "model")
                  (property (url_parse_query (url req)) "grammar") res)
        as (_ & Htrace & _).
      eexists _, _. apply Hdrop. rewrite Htrace. simpl trace.
      rewrite <- app_assoc. reflexivity.
    + rewrite (requestListener_get_no_speech s res req Hpath Hmethod Hspeech).
      eexists _, _. apply Hdrop. reflexivity.
  - destruct (model_mismatch (property (url_parse_query (url req)) "model")
                (modelName s)) eqn:Hmis.
    + rewrite (requestListener_post_mismatch s res req Hpath Hmethod Hmis).
      eexists _, _. apply Hdrop. reflexivity.
    + rewrite (requestListener_post s res req Hpath Hmethod Hmis).
      eexists _, _. apply Hdrop. reflexivity.
Qed.

(** X17: the engine is called at most once for each request: over any run,
    the number of engine calls is at most the number of requests that
    arrived plus the number of requests whose body was being received at the
    start. *)
Theorem engine_called_at_most_once_per_request (s : state) (inputs : list input) :
  (length (engine_calls (effects_of (run inputs) s))
   <= length (List.filter is_Request inputs) + receiving (parked s))%nat.
Proof.
  destruct (run_calls inputs s) as (new & Hnew & Hle).
  rewrite (effects_of_app _ _ _ Hnew). lia.
Qed.

(** X18: over any run, the clock is read once for each line logged, and the
    lines carry the readings in the order they were made: the k-th line
    logged starts with the k-th reading. *)
Theorem log_lines_carry_successive_clock_readings (s : state) (inputs : list input) :
  stamped (clock_reads s) (effects_of (run inputs) s)
  = Some (clock_reads (snd (run inputs s))).
Proof.
  destruct (run_stamped inputs s) as (new & Hnew & Hst).
  rewrite (effects_of_app _ _ _ Hnew). exact Hst.
Qed.

(** X19: of the URL of a GET or a POST to the transcript endpoint, the
    listener reads nothing but the query parameters id, model and grammar,
    and speech for a GET: two such requests with the same method and the same
    values of these parameters are handled alike, whatever else their URLs
    hold after the prefix. *)
Theorem only_the_query_parameters_matter (s : state) (res : conn) (r1 r2 : request) :
  url_matches (url r1) = true -> url_matches (url r2) = true ->
  method r1 = method r2 ->
  method r1 = "GET" \/ method r1 = "POST" ->
  let p1 := property (url_parse_query (url r1)) in
  let p2 := property (url_parse_query (url r2)) in
  p1 "id" = p2 "id" -> p1 "model" = p2 "model" -> p1 "grammar" = p2 "grammar" ->
  (method r1 = "GET" -> p1 "speech" = p2 "speech") ->
  requestListener r1 res s = requestListener r2 res s.
Proof.
  intros H1 H2 Hm Hmethod. cbv zeta. intros Hid Hmodel Hgrammar Hspeech.
  unfold requestListener. rewrite H1, H2, <- Hm, Hid, Hmodel, Hgrammar.
  destruct Hmethod as [Hg | Hp].
  - rewrite (Hspeech Hg). reflexivity.
  - rewrite Hp. reflexivity.
Qed.

(** X20: shutdown does not wait for the requests that are parked and does
    not answer them: besides its log lines its only call is freeModel on the
    loaded model, no response is ended, and the parked requests are as they
    were when the process exits with code 0. *)
Theorem shutdown_answers_no_pending_request (s : state) (ev : process_event) (res : conn) :
  fst (process_on ev s) = Exited 0 /\
  calls (effects_of (process_on ev) s) = [FreeModel (model s)] /\
  bodies res (effects_of (process_on ev) s) = [] /\
  parked (snd (process_on ev s)) = parked s.
Proof.
  unfold process_on, shutdown.
  destruct ev; exec; rewrite <- ?app_assoc; rewrite drop_app_length; simpl; auto.
Qed.


(** X22: without debug, the log of a run holds one line for each GET or
    POST to the transcript endpoint and one line for each response that was
    ended, and nothing else: the lines of lines 297, 307 and 321 are logged
    with debug only. *)
Theorem lines_logged_without_debug (s : state) (inputs : list input) :
  debug s = false ->
  length (List.filter is_ConsoleLog (effects_of (run inputs) s))
  = (length (List.filter is_ResEnd (effects_of (run inputs) s))
     + length (List.filter is_transcript_request inputs))%nat.
Proof.
  intros D. destruct (run_lines inputs s D) as (new & Hnew & Hcount).
  rewrite (effects_of_app _ _ _ Hnew). exact Hcount.
Qed.

End Facts.

(** * The properties on concrete requests

    The server runs on the platform of [Sample], started with the model
    small-en. *)

Import Sample.

(** The scenario of the specification: the bytes of RIFF in two chunks. *)
Lemma post_buffer_is_concatenation_witness :
  url_matches (url (post_ "/transcript")) = true /\
  engine_calls
    (effects_of
       (run [Request 1 (post_ "/transcript"); Data 1 [x52; x49]; Data 1 [x46; x46];
             EndOfBody 1])
       (started false))
  = [TranscriptFromBuffer [x52; x49; x46; x46] (Some "small-en") None].
Proof.
  split; [reflexivity |].
  exact (proj2 (post_buffer_is_concatenation (started false) 1%nat (post_ "/transcript")
                  [[x52; x49]; [x46; x46]] eq_refl eq_refl eq_refl)).
Defined.

(** C2 as stated fails: a GET with a wrong model name and no speech value is
    answered 405, not 404. *)
Lemma wrong_model_without_speech_is_405 :
  let req := get_ "/transcript?model=wrong" in
  url_parse_query (url req) !! "model" = Some (QString "wrong") /\
  "wrong" <> modelName (started false) /\
  statusCode 1 (effects_of (requestListener req 1%nat) (started false)) = 405.
Proof. cbv zeta. split; [reflexivity |]. split; [discriminate | reflexivity]. Qed.

(** The scenario of the specification: speech a.wav, model wrong. *)
Lemma model_mismatch_is_404_witness :
  let req := get_ "/transcript?speech=a.wav&model=wrong" in
  statusCode 1 (effects_of (requestListener req 1%nat) (started false)) = 404 /\
  engine_calls (effects_of (requestListener req 1%nat) (started false)) = [].
Proof.
  cbv zeta.
  pose proof (model_mismatch_is_404 (started false) 1%nat
                (get_ "/transcript?speech=a.wav&model=wrong")
                eq_refl (or_introl (conj eq_refl eq_refl)) eq_refl
                ltac:(discriminate)) as (_ & H2 & H3 & _).
  exact (conj H2 H3).
Defined.

(** GET /transcript?id=7: status 405, and a body that is not JSON. *)
Lemma speechless_get_has_no_error_field_witness :
  let req := get_ "/transcript?id=7" in
  let body := "{" +:+ dq +:+ "error" +:+ dq +:+ ":" +:+ dq +:+ "id 7 " +:+ dq +:+ "speech"
              +:+ dq +:+ " attribute not found in the body request" +:+ dq +:+ "}" in
  statusCode 1 (effects_of (requestListener req 1%nat) (started false)) = 405 /\
  bodies 1 (effects_of (requestListener req 1%nat) (started false)) = [body] /\
  is_json_error_object body = false.
Proof.
  cbv zeta.
  pose proof (speechless_get_has_no_error_field (started false) 1%nat
                (get_ "/transcript?id=7") eq_refl eq_refl eq_refl)
    as (_ & H2 & _ & _ & H5 & H6 & _).
  exact (conj H2 (conj H5 H6)).
Defined.

(** With debug on, one GET whose transcription the engine rejects: the
    request is over and the counter shows one active request. *)
Lemma failed_request_leaves_counter_up_witness :
  let inputs := [Request 1 (get_ "/transcript?speech=a.wav");
                 Settled 1 (inl "Error: cannot open a.wav")] in
  activeRequests (started true) = 0 /\
  parked (snd (run inputs (started true))) = ∅ /\
  statusCode 1 (effects_of (run inputs) (started true)) = 415 /\
  activeRequests (snd (run inputs (started true))) = 1.
Proof.
  cbv zeta.
  pose proof (failed_request_leaves_counter_up (started true) 1%nat
                (get_ "/transcript?speech=a.wav") None (inl "Error: cannot open a.wav")
                eq_refl eq_refl eq_refl eq_refl eq_refl eq_refl eq_refl)
    as (_ & H2 & _ & H4).
  split; [reflexivity |]. split; [exact H2 |]. split; [reflexivity | exact H4].
Defined.

(** C5 as stated fails: a GET whose grammar does not parse and that has no
    speech value is answered 405, not 415. *)
Lemma bad_grammar_without_speech_is_405 :
  let req := get_ "/transcript?grammar=oops" in
  url_parse_query (url req) !! "grammar" = Some (QString "oops") /\
  JSON_parse "oops" = inl "SyntaxError: Unexpected token" /\
  statusCode 1 (effects_of (requestListener req 1%nat) (started false)) = 405.
Proof. cbv zeta. repeat split. Qed.

Lemma bad_grammar_is_415_witness :
  let get := get_ "/transcript?speech=a.wav&grammar=oops" in
  let post := post_ "/transcript?grammar=oops" in
  statusCode 1 (effects_of (requestListener get 1%nat) (started false)) = 415 /\
  statusCode 2
    (effects_of (run [Request 2 post; Data 2 [x52; x49]; EndOfBody 2]) (started false))
  = 415.
Proof.
  cbv zeta.
  pose proof (bad_grammar_is_415 (started false) 1%nat
                (get_ "/transcript?speech=a.wav&grammar=oops")
                "SyntaxError: Unexpected token" eq_refl eq_refl eq_refl eq_refl)
    as (Hget & _ & _).
  pose proof (bad_grammar_is_415 (started false) 2%nat
                (post_ "/transcript?grammar=oops")
                "SyntaxError: Unexpected token" eq_refl eq_refl eq_refl eq_refl)
    as (_ & Hpost & _).
  destruct (Hget eq_refl eq_refl) as (_ & H1 & _).
  destruct (Hpost eq_refl [[x52; x49]]) as (_ & H2 & _).
  exact (conj H1 H2).
Defined.

(** C6 as stated fails: the answer to a request with an unsupported method
    does not hold the id the client gave. *)
Lemma unsupported_method_answer_has_no_id :
  let req := {| url := "/transcript?id=abc7"; method := "PUT" |} in
  url_parse_query (url req) !! "id" = Some (QString "abc7") /\
  bodies 1 (effects_of (requestListener req 1%nat) (started false))
  = [error_body "method not allowed PUT"] /\
  contains "abc7" (error_body "method not allowed PUT") = false.
Proof. cbv zeta. repeat split. Qed.

(** The scenario of the specification: GET with speech sample.wav and no
    model parameter; the engine resolves, and the answer holds the id and
    the latency. *)
Lemma request_id_in_every_answer_witness :
  let req := get_ "/transcript?speech=sample.wav&id=abc7" in
  let data := {| latency := 12; result := [("text", "hello")] |} in
  let inputs := [Request 1 req; Settled 1 (inr data)] in
  statusCode 1 (effects_of (run inputs) (started false)) = 200 /\
  answered_with (IdQuery (QString "abc7")) (inr data) 1%nat
    (effects_of (run inputs) (started false)) /\
  obj_get "id" (response_object (IdQuery (QString "abc7")) data)
  = Some (FId (IdQuery (QString "abc7"))).
Proof.
  cbv zeta.
  pose proof (request_id_in_every_answer (started false) 1%nat
                (get_ "/transcript?speech=sample.wav&id=abc7") []
                (inr {| latency := 12; result := [("text", "hello")] |})
                eq_refl) as (_ & _ & Hanswer & _).
  destruct (Hanswer eq_refl _ (or_introl (conj eq_refl eq_refl))) as (_ & H).
  split; [reflexivity |]. split; [exact H | reflexivity].
Defined.

Lemma speech_error_is_not_json_witness :
  let req := get_ "/transcript?id=abc7" in
  exists body,
    bodies 1 (effects_of (requestListener req 1%nat) (started false)) = [body] /\
    is_json_error_object body = false.
Proof.
  cbv zeta.
  exact (proj2 (proj2 (speech_error_is_not_json (started false) 1%nat
                         (get_ "/transcript?id=abc7") eq_refl eq_refl eq_refl))).
Defined.

Lemma other_path_or_method_is_405_witness :
  statusCode 1
    (effects_of (requestListener (get_ "/status") 1%nat) (started false)) = 405 /\
  statusCode 1
    (effects_of (requestListener {| url := "/transcript"; method := "DELETE" |} 1%nat)
       (started false)) = 405.
Proof.
  destruct (other_path_or_method_is_405 (started false) 1%nat (get_ "/status"))
    as [Hpath _].
  destruct (other_path_or_method_is_405 (started false) 1%nat
              {| url := "/transcript"; method := "DELETE" |}) as [_ Hmethod].
  destruct (Hpath eq_refl) as (_ & H1 & _).
  destruct (Hmethod eq_refl ltac:(discriminate) ltac:(discriminate)) as (_ & H2 & _).
  exact (conj H1 H2).
Defined.

Lemma exit_codes_witness :
  fst (main {| arg_model := AUndefined; arg_port := AString "8086"; arg_debug := ABool true |}
         (started false)) = Exited 1 /\
  fst (process_on SIGINT (started false)) = Exited 0.
Proof.
  destruct (exit_codes (started false)) as [Hmain Hdown].
  destruct (Hmain {| arg_model := AUndefined; arg_port := AString "8086";
                     arg_debug := ABool true |} eq_refl) as [H1 _].
  destruct (Hdown SIGINT) as [H2 _].
  exact (conj H1 H2).
Defined.

(** C10 as stated fails: a POST without chunks whose grammar does not parse
    passes the model check and never reaches the engine. *)
Lemma post_without_chunks_bad_grammar :
  let req := post_ "/transcript?grammar=oops" in
  let new := effects_of (run [Request 1 req; EndOfBody 1]) (started false) in
  model_mismatch (property (url_parse_query (url req)) "model") (modelName (started false))
  = false /\
  engine_calls new = [] /\
  statusCode 1 new = 415.
Proof. cbv zeta. repeat split. Qed.

Lemma post_without_chunks_witness :
  let req := post_ "/transcript" in
  let new := effects_of (run [Request 1 req; EndOfBody 1]) (started false) in
  engine_calls new = [TranscriptFromBuffer [] (Some "small-en") None] /\
  bodies 1 new = [].
Proof.
  cbv zeta.
  pose proof (post_without_chunks (started false) 1%nat (post_ "/transcript")
                eq_refl eq_refl eq_refl) as (_ & H).
  exact (conj (proj1 H) (proj1 (proj2 H))).
Defined.

Lemma counter_untouched_without_debug_witness :
  let inputs := [Request 1 (get_ "/transcript?speech=a.wav");
                 Request 2 (post_ "/transcript"); Data 2 [x52; x49];
                 Settled 1 (inl "Error: cannot open a.wav"); EndOfBody 2] in
  debug (started false) = false /\
  activeRequests (snd (run inputs (started false))) = 0.
Proof.
  cbv zeta. split; [reflexivity |].
  exact (counter_untouched_without_debug (started false)
           [Request 1 (get_ "/transcript?speech=a.wav");
            Request 2 (post_ "/transcript"); Data 2 [x52; x49];
            Settled 1 (inl "Error: cannot open a.wav"); EndOfBody 2] eq_refl).
Defined.

(** Two requests side by side, debug on: the GET fails in the engine, the
    POST succeeds; both are over and the counter shows one. *)
Lemma counter_counts_failures_witness :
  let inputs := [Request 1 (get_ "/transcript?speech=a.wav");
                 Request 2 (post_ "/transcript"); Data 2 [x52; x49];
                 Settled 1 (inl "Error: cannot open a.wav"); EndOfBody 2;
                 Settled 2 (inr {| latency := 12; result := [] |})] in
  parked (snd (run inputs (started true))) = ∅ /\
  failures (effects_of (run inputs) (started true)) = 1%nat /\
  activeRequests (snd (run inputs (started true))) = 1.
Proof.
  cbv zeta. split; [reflexivity |]. split; [reflexivity |].
  rewrite (counter_counts_failures (started true)
             [Request 1 (get_ "/transcript?speech=a.wav");
              Request 2 (post_ "/transcript"); Data 2 [x52; x49];
              Settled 1 (inl "Error: cannot open a.wav"); EndOfBody 2;
              Settled 2 (inr {| latency := 12; result := [] |})] eq_refl).
  - reflexivity.
  - simpl. split; [apply not_elem_of_empty |]. split; [| exact I].
    set_unfold. intuition discriminate.
Defined.

(** The engine's promise settles twice for one GET: one answer. *)
Lemma response_ended_at_most_once_witness :
  let inputs := [Request 1 (get_ "/transcript?speech=a.wav");
                 Settled 1 (inr {| latency := 12; result := [] |});
                 Settled 1 (inr {| latency := 12; result := [] |})] in
  (length (bodies 1 (effects_of (run inputs) (started false))) <= 1)%nat.
Proof.
  cbv zeta.
  apply (response_ended_at_most_once (started false)
           [Request 1 (get_ "/transcript?speech=a.wav");
            Settled 1 (inr {| latency := 12; result := [] |});
            Settled 1 (inr {| latency := 12; result := [] |})] 1%nat).
  simpl. split; [apply not_elem_of_empty | exact I].
Defined.

(** A GET and a POST side by side; the POST is over and has its answer. *)
Lemma request_answered_exactly_once_witness :
  let inputs := [Request 1 (get_ "/transcript?speech=a.wav");
                 Request 2 (post_ "/transcript"); Data 2 [x52; x49];
                 Settled 1 (inl "Error: cannot open a.wav"); EndOfBody 2;
                 Settled 2 (inr {| latency := 12; result := [] |})] in
  length (bodies 2 (effects_of (run inputs) (started false))) = 1%nat.
Proof.
  cbv zeta.
  refine (request_answered_exactly_once (started false)
            [Request 1 (get_ "/transcript?speech=a.wav");
             Request 2 (post_ "/transcript"); Data 2 [x52; x49];
             Settled 1 (inl "Error: cannot open a.wav"); EndOfBody 2;
             Settled 2 (inr {| latency := 12; result := [] |})]
            2%nat (post_ "/transcript") _ (or_intror (or_introl eq_refl))).
  simpl. split; [apply not_elem_of_empty |]. split; [| exact I].
  set_unfold. intuition discriminate.
Defined.

(** A GET that comes with a body. *)
Lemma get_body_is_ignored_witness :
  let req := get_ "/transcript?speech=a.wav" in
  let settled := Settled 1 (inr {| latency := 12; result := [] |}) in
  run [Request 1 req; Data 1 [x52; x49]; EndOfBody 1; settled] (started false)
  = run [Request 1 req; settled] (started false).
Proof.
  cbv zeta.
  exact (get_body_is_ignored (started false) 1%nat (get_ "/transcript?speech=a.wav")
           [Data 1 [x52; x49]; EndOfBody 1]
           [Settled 1 (inr {| latency := 12; result := [] |})]
           eq_refl eq_refl eq_refl eq_refl).
Defined.

(** Two uploads at the same time: the first gets its own four bytes. *)
Lemma post_body_among_other_connections_witness :
  let mid := [Data 1 [x52; x49]; Request 2 (post_ "/transcript"); Data 2 [x00];
              Data 1 [x46; x46]] in
  engine_calls
    (effects_of (step (EndOfBody 1))
       (snd (run (Request 1 (post_ "/transcript") :: mid) (started false))))
  = [TranscriptFromBuffer [x52; x49; x46; x46] (Some "small-en") None].
Proof.
  cbv zeta.
  exact (proj2 (post_body_among_other_connections (started false) 1%nat
                  (post_ "/transcript")
                  [Data 1 [x52; x49]; Request 2 (post_ "/transcript"); Data 2 [x00];
                   Data 1 [x46; x46]]
                  eq_refl eq_refl eq_refl eq_refl)).
Defined.

(** The answer to an unsupported method is JSON. *)
Lemma plain_error_is_json_witness :
  is_json_error_object (error_body "method not allowed PUT") = true.
Proof.
  exact (proj2 (plain_error_is_json "method not allowed PUT" 405 1%nat (started false)
                  eq_refl)).
Defined.

(** [--port=8086] is listened on; [--port=65536] is thrown back. *)
Lemma server_listens_on_chosen_port_witness :
  let loaded := inr ("small-en", 1200) in
  calls (effects_of (main_resumed listen_ (AString "8086") loaded)
           (snd (main (argv (AString "8086") AUndefined) at_load)))
  = [Listen "8086"; ProcessOn "SIGTERM"; ProcessOn "SIGINT"; ProcessOn "uncaughtException"]
  /\
  fst (main_resumed listen_ (AString "65536") loaded
         (snd (main (argv (AString "65536") AUndefined) at_load)))
  = Thrown "RangeError [ERR_SOCKET_BAD_PORT]".
Proof.
  cbv zeta.
  pose proof (server_listens_on_chosen_port listen_ at_load (argv (AString "8086") AUndefined)
                "../models/small-en" ("small-en", 1200) eq_refl ltac:(discriminate))
    as (_ & _ & H).
  pose proof (server_listens_on_chosen_port listen_ at_load (argv (AString "65536") AUndefined)
                "../models/small-en" ("small-en", 1200) eq_refl ltac:(discriminate))
    as (_ & _ & H').
  exact (conj (proj2 H) (proj1 H')).
Defined.

(** [--debug=2] *)
Lemma debug_argument_settings_witness :
  let args := argv AUndefined (AString "2") in
  debug (snd (main args at_load)) = true /\
  List.filter is_LogLevel (effects_of (main args) at_load) = [LogLevel 2].
Proof.
  cbv zeta.
  exact (debug_argument_settings at_load (argv AUndefined (AString "2"))
           "../models/small-en" eq_refl ltac:(discriminate)).
Defined.

(** The model of the directory ../models/small-en is small-en. *)
Lemma model_is_named_by_its_directory_witness :
  let t := snd (main (argv AUndefined AUndefined) at_load) in
  modelName t = "small-en" /\
  model_mismatch (QString "small-en") (modelName t) = false /\
  model_mismatch (QArray ["small-en"; "small-en"]) (modelName t) = true.
Proof.
  cbv zeta.
  pose proof (model_is_named_by_its_directory at_load (argv AUndefined AUndefined)
                "../models/small-en" (QString "small-en") eq_refl ltac:(discriminate))
    as (H1 & H2).
  split; [exact H1 |]. split; [| reflexivity].
  apply H2. right. reflexivity.
Defined.


(** A GET without an id: the id is the timestamp of its log line. *)
Lemma request_is_logged_with_its_id_witness :
  id_toString (request_id (started false) (get_ "/transcript?speech=a.wav"))
  = "1620060067830".
Proof.
  exact (proj2 (request_is_logged_with_its_id (started false) 1%nat
                  (get_ "/transcript?speech=a.wav") eq_refl (or_introl eq_refl))
           eq_refl).
Defined.

(** A longer path and one more parameter: the same request. *)
Lemma only_the_query_parameters_matter_witness :
  requestListener (get_ "/transcript?speech=a.wav") 1%nat (started false)
  = requestListener (get_ "/transcription/x?other=1&speech=a.wav") 1%nat (started false).
Proof.
  exact (only_the_query_parameters_matter (started false) 1%nat
           (get_ "/transcript?speech=a.wav")
           (get_ "/transcription/x?other=1&speech=a.wav")
           eq_refl eq_refl eq_refl (or_introl eq_refl) eq_refl eq_refl eq_refl
           (fun _ => eq_refl)).
Defined.


(** Three requests, two of them to the endpoint, three answers: five lines. *)
Lemma lines_logged_without_debug_witness :
  let inputs := [Request 1 (get_ "/transcript?speech=a.wav");
                 Request 2 (post_ "/transcript?grammar=oops");
                 Request 3 (get_ "/status");
                 Settled 1 (inr {| latency := 12; result := [] |}); EndOfBody 2] in
  length (List.filter is_ConsoleLog (effects_of (run inputs) (started false))) = 5%nat.
Proof.
  cbv zeta.
  exact (lines_logged_without_debug (started false)
           [Request 1 (get_ "/transcript?speech=a.wav");
            Request 2 (post_ "/transcript?grammar=oops");
            Request 3 (get_ "/status");
            Settled 1 (inr {| latency := 12; result := [] |}); EndOfBody 2] eq_refl).
Defined.

(** A GET waits for the engine and a POST with a grammar that does not parse
    receives its body: the rejection and the end of the body are each
    answered to their own request. *)
Lemma event_loop_never_throws_witness :
  let inputs := [Request 1 (get_ "/transcript?speech=a.wav");
                 Request 2 (post_ "/transcript?grammar=oops")] in
  let t := snd (run inputs (started false)) in
  bodies 1 (effects_of (step (Settled 1 (inl "Error: cannot open a.wav"))) t)
  = [error_body (transcript_failed (IdTime 1620060067830) "Error: cannot open a.wav")] /\
  bodies 1 (effects_of (step (EndOfBody 2)) t) = [] /\
  statusCode 2 (effects_of (step (EndOfBody 2)) t) = 415.
Proof.
  cbv zeta.
  destruct (event_loop_never_throws (started false)
              [Request 1 (get_ "/transcript?speech=a.wav");
               Request 2 (post_ "/transcript?grammar=oops")]) as (_ & Hsettle & Hend & _).
  destruct (Hsettle 1%nat (IdTime 1620060067830) "Error: cannot open a.wav"
              (or_introl eq_refl)) as (_ & _ & H1 & _).
  destruct (Hend 2%nat (IdTime 1620060067831) [] QUndefined (QString "oops")
              "SyntaxError: Unexpected token" eq_refl eq_refl) as (_ & H2 & _ & H3).
  split; [exact H1 |]. split; [apply H3; discriminate | exact H2].
Defined.
